(** * MediaDownloader: a shallow embedding of [src/index.tsx]

    The component's React state, its event handlers and the timers they
    start are embedded as state-passing functions over a record [State].
    Values that reach the handlers from [JSON.parse] are untyped at run
    time, so they are embedded as a small universe of JavaScript values with
    the truthiness, property-access and strict-equality rules the handlers
    rely on.  Exceptions are embedded in a state-and-exception monad so that
    [try]/[catch]/[finally] reads as in the source. *)

From Stdlib Require Import List String Ascii Bool Arith ZArith QArith Lia Lqa.
From Stdlib Require Import DecimalString.
Import ListNotations.

Local Open Scope string_scope.
Local Open Scope list_scope.

Local Close Scope Q_scope.

Set Warnings "-register-all".

(* ================================================================== *)
(** ** JavaScript values *)
(* ================================================================== *)

(** Numbers are rationals: the handlers only add, compare and test them
    for zero.  Rounding of IEEE doubles is not represented. *)
Inductive js_value : Type :=
| JUndefined
| JNull
| JBool (b : bool)
| JNum (x : Q)
| JStr (s : string)
| JArr (items : list js_value)
| JObj (fields : list (string * js_value)).

(** [!!v]: [undefined], [null], [false], [0] and [""] are falsy; every
    array and every object, the empty ones included, is truthy. *)
Definition truthy (v : js_value) : bool :=
  match v with
  | JUndefined | JNull => false
  | JBool b => b
  | JNum x => negb (Qeq_bool x 0%Q)
  | JStr EmptyString => false
  | JStr (String _ _) => true
  | JArr _ | JObj _ => true
  end.

(** [a || b] *)
Definition js_or (a b : js_value) : js_value :=
  if truthy a then a else b.

Fixpoint lookup (key : string) (fields : list (string * js_value)) : js_value :=
  match fields with
  | [] => JUndefined
  | (k, v) :: rest => if String.eqb k key then v else lookup key rest
  end.

(** [v.key] for the property names the handlers read ([title], [url],
    [video_qualities], ...): a [TypeError] ([None]) on [undefined] and
    [null], the own property of an object, [undefined] on anything else
    (none of these names is defined on a prototype). *)
Definition prop (v : js_value) (key : string) : option js_value :=
  match v with
  | JUndefined | JNull => None
  | JObj fields => Some (lookup key fields)
  | _ => Some JUndefined
  end.

Definition index_key (i : nat) : string :=
  NilZero.string_of_uint (Nat.to_uint i).

(** [v[i]] for a literal index [i]. *)
Definition elem (v : js_value) (i : nat) : option js_value :=
  match v with
  | JUndefined | JNull => None
  | JArr items => Some (nth i items JUndefined)
  | JStr s => Some (match String.get i s with
                    | Some c => JStr (String c EmptyString)
                    | None => JUndefined
                    end)
  | JObj fields => Some (lookup (index_key i) fields)
  | _ => Some JUndefined
  end.

(** [v !== s] for a string [s]: strict inequality holds unless [v] is the
    same string. *)
Definition strict_neq_string (v : js_value) (s : string) : bool :=
  match v with
  | JStr t => negb (String.eqb t s)
  | _ => true
  end.

(** *** Strings *)

(** White space removed by [String.prototype.trim], among the code units
    below 256 that a [string] holds. *)
Definition is_js_space (c : ascii) : bool :=
  let n := nat_of_ascii c in
  (((9 <=? n) && (n <=? 13)) || (n =? 32) || (n =? 160))%nat.

Fixpoint trim_start (s : string) : string :=
  match s with
  | EmptyString => EmptyString
  | String c rest => if is_js_space c then trim_start rest else s
  end.

Fixpoint trim_end (s : string) : string :=
  match s with
  | EmptyString => EmptyString
  | String c rest =>
      match trim_end rest with
      | EmptyString => if is_js_space c then EmptyString else String c EmptyString
      | t => String c t
      end
  end.

Definition trim (s : string) : string := trim_end (trim_start s).

Definition string_truthy (s : string) : bool :=
  match s with EmptyString => false | _ => true end.

(** *** Text seen through [JSON.parse] *)

(** A JavaScript string handed to [JSON.parse], classified by what the
    parser does with it: the empty string and malformed text raise a
    [SyntaxError], any other text denotes a value. *)
Inductive json_text : Type :=
| EmptyText
| Malformed
| Encodes (v : js_value).

Definition JSON_parse (t : json_text) : option js_value :=
  match t with
  | Encodes v => Some v
  | EmptyText | Malformed => None
  end.

(** [JSON.stringify v], for a value that survives the round trip: the
    text that [JSON.parse] reads back as [v].  A number that overflowed to
    an infinity, which [JSON.stringify] writes as [null], is not among the
    values of [js_value]. *)
Definition JSON_stringify (v : js_value) : json_text := Encodes v.

Definition text_truthy (t : json_text) : bool :=
  match t with EmptyText => false | _ => true end.

(* ================================================================== *)
(** ** Data model *)
(* ================================================================== *)

(** [interface VideoMetadata].  The declared field types are erased at run
    time and the fields are filled from parsed provider data, so each one
    holds an arbitrary value. *)
Module VideoMetadata.
Record t : Type := {
  title : js_value;
  thumbnail : js_value;
  duration : js_value;
  author : js_value;
  videoQualities : js_value;
  audioFormats : js_value
}.
End VideoMetadata.

(** [interface HistoryItem], as [saveToHistory] builds it. *)
Module HistoryItem.
Record t : Type := {
  id : string;
  url : string;
  title : js_value;
  timestamp : Z
}.

(** The object literal [{ id, url, title, timestamp }]. *)
Definition value (h : t) : js_value :=
  JObj [ ("id", JStr (id h));
         ("url", JStr (url h));
         ("title", title h);
         ("timestamp", JNum (inject_Z (timestamp h))) ].
End HistoryItem.

(** An array of well-formed history items. *)
Definition history_value (items : list HistoryItem.t) : js_value :=
  JArr (map HistoryItem.value items).

(** What a download's completion callback closes over:
    [metadata?.title] and [selectedFormat] of the render that started it. *)
Record notice : Type := {
  notice_title : js_value;
  notice_format : js_value
}.

(** The component's state (the [useState] cells the handlers touch),
    together with the parts of the browser they act on: the
    ['downloader_history'] slot of [localStorage], the running
    [setInterval] timers, the pending [setTimeout] callbacks and the
    [alert]s raised so far.  The cells hold what React has once the updates
    a handler queued are applied; a handler reads a cell through the
    render that created it (the [render] argument of the handlers below),
    and an updater function reads the latest value. *)
Record State : Type := {
  url : string;
  loading : bool;
  metadata : option VideoMetadata.t;
  selectedFormat : js_value;
  downloading : bool;
  progress : Q;
  history : js_value;
  error : option string;
  localStorage : option json_text;
  intervals : list notice;
  timeouts : list notice;
  alerts : list notice
}.

(** The state of a freshly mounted component over a given storage slot. *)
Definition initial (slot : option json_text) : State :=
  {| url := ""; loading := false; metadata := None;
     selectedFormat := JStr ""; downloading := false; progress := 0%Q;
     history := JArr []; error := None;
     localStorage := slot; intervals := []; timeouts := []; alerts := [] |}.

(* ================================================================== *)
(** ** Handlers as state-and-exception computations *)
(* ================================================================== *)

Inductive completion (A : Type) : Type :=
| Normal (a : A)
| Abrupt.
Arguments Normal {A} a.
Arguments Abrupt {A}.

Definition M (A : Type) : Type := State -> completion A * State.

Definition ret {A} (a : A) : M A := fun s => (Normal a, s).

Definition throw {A} : M A := fun s => (Abrupt, s).

Definition bind {A B} (m : M A) (k : A -> M B) : M B :=
  fun s =>
    match m s with
    | (Normal a, s') => k a s'
    | (Abrupt, s') => (Abrupt, s')
    end.

Notation "x <- m ;; k" := (bind m (fun x => k))
  (at level 61, m at next level, right associativity).
Notation "m ;; k" := (bind m (fun _ => k))
  (at level 61, right associativity).

(** An operation that yields a value or raises. *)
Definition lift {A} (o : option A) : M A :=
  match o with Some a => ret a | None => throw end.

(** [try { body } catch { handler } finally { finalizer }] *)
Definition try_catch_finally (body handler finalizer : M unit) : M unit :=
  fun s =>
    let (r1, s1) := body s in
    let (r2, s2) := match r1 with
                    | Normal _ => (Normal tt, s1)
                    | Abrupt => handler s1
                    end in
    let (r3, s3) := finalizer s2 in
    match r3 with
    | Normal _ => (r2, s3)
    | Abrupt => (Abrupt, s3)
    end.

(** The state a computation leaves behind. *)
Definition exec {A} (m : M A) (s : State) : State := snd (m s).

(** Whether it completed without an uncaught exception. *)
Definition completes {A} (m : M A) (s : State) : bool :=
  match fst (m s) with Normal _ => true | Abrupt => false end.

Definition update (f : State -> State) : M unit := fun s => (Normal tt, f s).
Definition read {A} (f : State -> A) : M A := fun s => (Normal (f s), s).

(** *** State setters *)

Definition setUrl (v : string) : M unit := update (fun s =>
  {| url := v; loading := loading s; metadata := metadata s;
     selectedFormat := selectedFormat s; downloading := downloading s;
     progress := progress s; history := history s; error := error s;
     localStorage := localStorage s; intervals := intervals s;
     timeouts := timeouts s; alerts := alerts s |}).

Definition setLoading (v : bool) : M unit := update (fun s =>
  {| url := url s; loading := v; metadata := metadata s;
     selectedFormat := selectedFormat s; downloading := downloading s;
     progress := progress s; history := history s; error := error s;
     localStorage := localStorage s; intervals := intervals s;
     timeouts := timeouts s; alerts := alerts s |}).

Definition setMetadata (v : option VideoMetadata.t) : M unit := update (fun s =>
  {| url := url s; loading := loading s; metadata := v;
     selectedFormat := selectedFormat s; downloading := downloading s;
     progress := progress s; history := history s; error := error s;
     localStorage := localStorage s; intervals := intervals s;
     timeouts := timeouts s; alerts := alerts s |}).

Definition setSelectedFormat (v : js_value) : M unit := update (fun s =>
  {| url := url s; loading := loading s; metadata := metadata s;
     selectedFormat := v; downloading := downloading s;
     progress := progress s; history := history s; error := error s;
     localStorage := localStorage s; intervals := intervals s;
     timeouts := timeouts s; alerts := alerts s |}).

Definition setDownloading (v : bool) : M unit := update (fun s =>
  {| url := url s; loading := loading s; metadata := metadata s;
     selectedFormat := selectedFormat s; downloading := v;
     progress := progress s; history := history s; error := error s;
     localStorage := localStorage s; intervals := intervals s;
     timeouts := timeouts s; alerts := alerts s |}).

Definition setProgress (v : Q) : M unit := update (fun s =>
  {| url := url s; loading := loading s; metadata := metadata s;
     selectedFormat := selectedFormat s; downloading := downloading s;
     progress := v; history := history s; error := error s;
     localStorage := localStorage s; intervals := intervals s;
     timeouts := timeouts s; alerts := alerts s |}).

Definition setHistory (v : js_value) : M unit := update (fun s =>
  {| url := url s; loading := loading s; metadata := metadata s;
     selectedFormat := selectedFormat s; downloading := downloading s;
     progress := progress s; history := v; error := error s;
     localStorage := localStorage s; intervals := intervals s;
     timeouts := timeouts s; alerts := alerts s |}).

Definition setError (v : option string) : M unit := update (fun s =>
  {| url := url s; loading := loading s; metadata := metadata s;
     selectedFormat := selectedFormat s; downloading := downloading s;
     progress := progress s; history := history s; error := v;
     localStorage := localStorage s; intervals := intervals s;
     timeouts := timeouts s; alerts := alerts s |}).

(** *** Browser facilities *)

Definition set_slot (v : option json_text) (s : State) : State :=
  {| url := url s; loading := loading s; metadata := metadata s;
     selectedFormat := selectedFormat s; downloading := downloading s;
     progress := progress s; history := history s; error := error s;
     localStorage := v; intervals := intervals s;
     timeouts := timeouts s; alerts := alerts s |}.

Definition set_intervals (v : list notice) (s : State) : State :=
  {| url := url s; loading := loading s; metadata := metadata s;
     selectedFormat := selectedFormat s; downloading := downloading s;
     progress := progress s; history := history s; error := error s;
     localStorage := localStorage s; intervals := v;
     timeouts := timeouts s; alerts := alerts s |}.

Definition set_timeouts (v : list notice) (s : State) : State :=
  {| url := url s; loading := loading s; metadata := metadata s;
     selectedFormat := selectedFormat s; downloading := downloading s;
     progress := progress s; history := history s; error := error s;
     localStorage := localStorage s; intervals := intervals s;
     timeouts := v; alerts := alerts s |}.

Definition set_alerts (v : list notice) (s : State) : State :=
  {| url := url s; loading := loading s; metadata := metadata s;
     selectedFormat := selectedFormat s; downloading := downloading s;
     progress := progress s; history := history s; error := error s;
     localStorage := localStorage s; intervals := intervals s;
     timeouts := timeouts s; alerts := v |}.

(** [localStorage.getItem('downloader_history')] *)
Definition localStorage_getItem : M (option json_text) := read localStorage.

(** [localStorage.setItem('downloader_history', text)]; raises when the
    browser refuses the write ([writable = false]: quota exceeded, storage
    disabled). *)
Definition localStorage_setItem (writable : bool) (text : json_text) : M unit :=
  if writable then update (set_slot (Some text)) else throw.

(** [localStorage.removeItem('downloader_history')] *)
Definition localStorage_removeItem : M unit := update (set_slot None).

(** Drop the [k]-th element of a list. *)
Fixpoint remove_nth {A} (k : nat) (l : list A) : list A :=
  match l, k with
  | [], _ => []
  | _ :: rest, O => rest
  | x :: rest, S k' => x :: remove_nth k' rest
  end.

Definition setInterval (n : notice) : M unit :=
  update (fun s => set_intervals (intervals s ++ [n]) s).
Definition clearInterval (k : nat) : M unit :=
  update (fun s => set_intervals (remove_nth k (intervals s)) s).
Definition setTimeout (n : notice) : M unit :=
  update (fun s => set_timeouts (timeouts s ++ [n]) s).
Definition alert (n : notice) : M unit :=
  update (fun s => set_alerts (alerts s ++ [n]) s).

(* ================================================================== *)
(** ** The History Store *)
(* ================================================================== *)

(** [v.filter(p)]: a [TypeError] unless [v] is an array ([filter] is not a
    function on anything else), and whatever [p] raises on an element. *)
Fixpoint filter_items (p : js_value -> option bool) (items : list js_value)
  : option (list js_value) :=
  match items with
  | [] => Some []
  | h :: rest =>
      match p h with
      | None => None
      | Some keep =>
          match filter_items p rest with
          | None => None
          | Some kept => Some (if keep then h :: kept else kept)
          end
      end
  end.

Definition array_filter (p : js_value -> option bool) (v : js_value)
  : option (list js_value) :=
  match v with
  | JArr items => filter_items p items
  | _ => None
  end.

(** [h => h.url !== videoUrl] *)
Definition other_url (videoUrl : string) (h : js_value) : option bool :=
  match prop h "url" with
  | Some u => Some (strict_neq_string u videoUrl)
  | None => None
  end.

(** Mount effect: load history from [localStorage]. *)
Definition loadHistory : M unit :=
  savedHistory <- localStorage_getItem ;;
  match savedHistory with
  | Some text =>
      if text_truthy text
      then (parsed <- lift (JSON_parse text) ;; setHistory parsed)
      else ret tt
  | None => ret tt
  end.

(** What a handler draws from its surroundings while it runs: the value of
    [Math.random().toString(36).substr(2, 9)], of [Date.now()], and whether
    [localStorage] accepts a write. *)
Record ambient : Type := {
  random_id : string;
  now : Z;
  writable : bool
}.

(** [saveToHistory(title, videoUrl)].  [render] is the state of the render
    that created the handler: the [history] it filters is the one that
    render saw. *)
Definition saveToHistory (render : State) (a : ambient)
           (title : js_value) (videoUrl : string) : M unit :=
  let newItem := HistoryItem.value
                   {| HistoryItem.id := random_id a;
                      HistoryItem.url := videoUrl;
                      HistoryItem.title := title;
                      HistoryItem.timestamp := now a |} in
  kept <- lift (array_filter (other_url videoUrl) (history render)) ;;
  let updatedHistory := JArr (firstn 20 (newItem :: kept)) in
  setHistory updatedHistory ;;
  localStorage_setItem (writable a) (JSON_stringify updatedHistory).

Definition clearHistory : M unit :=
  setHistory (JArr []) ;;
  localStorage_removeItem.

(* ================================================================== *)
(** ** Resolution: [fetchQualities] *)
(* ================================================================== *)

(** How [await ai.models.generateContent(...)] settles: it rejects, or it
    yields a response whose [text] is [undefined] or a string. *)
Inductive provider_reply : Type :=
| Rejected
| Responded (text : option json_text).

(** [JSON.parse(response.text || '{}')] *)
Definition response_data (r : provider_reply) : option js_value :=
  match r with
  | Rejected => None
  | Responded text =>
      JSON_parse (match text with
                  | Some t => if text_truthy t then t else Encodes (JObj [])
                  | None => Encodes (JObj [])
                  end)
  end.

Definition default_videoQualities : js_value :=
  JArr [JStr "360p (SD)"; JStr "720p (HD)"; JStr "1080p (Full HD)"].

Definition default_audioFormats : js_value :=
  JArr [JStr "MP3 128kbps"; JStr "MP3 320kbps"; JStr "AAC (Original)"].

(** The object literal [videoInfo]; reading a property of [data] raises
    when [data] is [null]. *)
Definition videoInfo (data : js_value) : option VideoMetadata.t :=
  match prop data "title", prop data "author", prop data "thumbnail_url",
        prop data "duration", prop data "video_qualities",
        prop data "audio_formats" with
  | Some t, Some a, Some th, Some d, Some vq, Some af =>
      Some {| VideoMetadata.title := js_or t (JStr "Unknown Media Content");
              VideoMetadata.author := js_or a (JStr "Content Creator");
              VideoMetadata.thumbnail := js_or th (JStr
                "https://images.unsplash.com/photo-1611162617474-5b21e879e113?auto=format&fit=crop&q=80&w=300&h=200");
              VideoMetadata.duration := js_or d (JStr "N/A");
              VideoMetadata.videoQualities := js_or vq default_videoQualities;
              VideoMetadata.audioFormats := js_or af default_audioFormats |}
  | _, _, _, _, _, _ => None
  end.

(** [videoInfo.videoQualities[1] || videoInfo.videoQualities[0]] *)
Definition default_selection (info : VideoMetadata.t) : option js_value :=
  match elem (VideoMetadata.videoQualities info) 1 with
  | Some second =>
      if truthy second then Some second
      else elem (VideoMetadata.videoQualities info) 0
  | None => None
  end.

Definition msg_no_link : string := "Please paste a valid media link first.".
Definition msg_fetch_failed : string :=
  "Could not fetch media info. Please check the URL and try again.".

(** [fetchQualities] up to its [await]: yields whether the provider request
    was issued. *)
Definition fetchQualities_begin (render : State) : M bool :=
  if negb (string_truthy (trim (url render)))
  then setError (Some msg_no_link) ;; ret false
  else setLoading true ;; setError None ;; setMetadata None ;; ret true.

(** [fetchQualities] from the point where the [await] settles with
    [reply]; it acts on the state of that moment. *)
Definition fetchQualities_resume (render : State) (reply : provider_reply)
           (a : ambient) : M unit :=
  try_catch_finally
    (data <- lift (response_data reply) ;;
     info <- lift (videoInfo data) ;;
     setMetadata (Some info) ;;
     selection <- lift (default_selection info) ;;
     setSelectedFormat selection ;;
     saveToHistory render a (VideoMetadata.title info) (url render))
    (setError (Some msg_fetch_failed))
    (setLoading false).

(** A click on "Fetch Qualities" that runs to its end before any other
    event is handled. *)
Definition fetchQualities (reply : provider_reply) (a : ambient) : M unit :=
  fun s =>
    (issued <- fetchQualities_begin s ;;
     if issued : bool then fetchQualities_resume s reply a else ret tt) s.

(* ================================================================== *)
(** ** The simulated download: [startDownload] and its timers *)
(* ================================================================== *)

(** What the completion callback of a download started from [render]
    will report. *)
Definition completion_notice (render : State) : notice :=
  {| notice_title := match metadata render with
                     | Some m => VideoMetadata.title m
                     | None => JUndefined
                     end;
     notice_format := selectedFormat render |}.

Definition startDownload (render : State) : M unit :=
  if negb (truthy (selectedFormat render)) then ret tt
  else
    setDownloading true ;;
    setProgress 0%Q ;;
    setInterval (completion_notice render).

(** The callback of the [k]-th running interval fires; [r] is the value
    [Math.random()] returns if it is called.  The sum [prev + r * 15] is
    the exact one: the code rounds the product and the sum to the nearest
    double, so on a given state it takes the same branch and differs from
    this value in the last bits only. *)
Definition interval_fires (k : nat) (r : Q) : M unit :=
  running <- read intervals ;;
  match nth_error running k with
  | None => ret tt
  | Some n =>
      prev <- read progress ;;
      if Qle_bool 100%Q prev
      then clearInterval k ;; setTimeout n ;; setProgress 100%Q
      else setProgress (prev + r * 15)%Q
  end.

(** The [k]-th pending timeout fires. *)
Definition timeout_fires (k : nat) : M unit :=
  pending <- read timeouts ;;
  match nth_error pending k with
  | None => ret tt
  | Some n =>
      update (fun s => set_timeouts (remove_nth k (timeouts s)) s) ;;
      setDownloading false ;;
      setProgress 0%Q ;;
      alert n
  end.

(** [Math.random()] returns a number in [[0, 1)]. *)
Definition random_draw (r : Q) : Prop := (0 <= r /\ r < 1)%Q.

(* ================================================================== *)
(** ** What the rendered page offers *)
(* ================================================================== *)

(** A value React accepts as a child ([{q}] in JSX): anything but a plain
    object; an array is rendered element by element. *)
Fixpoint renderable (v : js_value) : bool :=
  match v with
  | JObj _ => false
  | JArr items => forallb renderable items
  | _ => true
  end.

(** [labels.map(q => <button>...{q}...</button>)]: the labels of the buttons,
    or [None] when the expression raises ([map] is not a function on a
    value that is not an array, and an object is not a valid child). *)
Definition button_row (labels : js_value) : option (list js_value) :=
  match labels with
  | JArr items => if forallb renderable items then Some items else None
  | _ => None
  end.

(** The "Results Section" is rendered under [metadata && !loading].  It
    yields the labels of the format buttons, video first, or [None] when
    rendering it raises. *)
Definition results_section (s : State) : option (list js_value) :=
  match metadata s with
  | Some m =>
      if loading s then Some []
      else
        match button_row (VideoMetadata.videoQualities m),
              button_row (VideoMetadata.audioFormats m) with
        | Some video, Some audio =>
            if renderable (VideoMetadata.title m)
               && renderable (VideoMetadata.author m)
               && renderable (VideoMetadata.duration m)
               && (downloading s || renderable (selectedFormat s))
            then Some (video ++ audio)
            else None
        | _, _ => None
        end
  | None => Some []
  end.

(** The format buttons on the page (with the history dialog closed): none
    when the render raises, which takes the whole component down; the
    header reads [history.length], which raises on [null]. *)
Definition format_buttons (s : State) : list js_value :=
  match history s with
  | JUndefined | JNull => []
  | _ => match results_section s with
         | Some labels => labels
         | None => []
         end
  end.

(** The "Download" button is on the page and not disabled. *)
Definition download_button_enabled (s : State) : bool :=
  match history s, metadata s, results_section s with
  | JUndefined, _, _ | JNull, _, _ => false
  | _, Some _, Some _ => negb (loading s) && negb (downloading s)
  | _, _, _ => false
  end.

(** The "Fetch Qualities" button is on the page and not disabled
    ([disabled={loading || !url}]). *)
Definition fetch_button_enabled (s : State) : bool :=
  match history s, results_section s with
  | JUndefined, _ | JNull, _ => false
  | _, Some _ => negb (loading s || negb (string_truthy (url s)))
  | _, None => false
  end.

(** The clicks the page accepts and what each one runs.  Handlers are those
    of the current render. *)
Inductive click : Type :=
| ClickFormat (q : js_value)
| ClickDownload
| ClickFetch.

Inductive ui_step : State -> click -> State -> Prop :=
| step_format (s : State) (q : js_value) :
    In q (format_buttons s) ->
    ui_step s (ClickFormat q) (exec (setSelectedFormat q) s)
| step_download (s : State) :
    download_button_enabled s = true ->
    ui_step s ClickDownload (exec (startDownload s) s)
| step_fetch (s : State) :
    fetch_button_enabled s = true ->
    ui_step s ClickFetch (exec (fetchQualities_begin s) s).

(* ================================================================== *)
(** ** Runs *)
(* ================================================================== *)

(** One call of [record(url, title)] on the History Store: [saveToHistory]
    as the current render provides it. *)
Record record_call : Type := {
  call_url : string;
  call_title : js_value;
  call_ambient : ambient
}.

Definition record (s : State) (c : record_call) : State :=
  exec (saveToHistory s (call_ambient c) (call_title c) (call_url c)) s.

Definition records (s : State) (calls : list record_call) : State :=
  fold_left record calls s.

(** The entry a call writes. *)
Definition entry_of (c : record_call) : HistoryItem.t :=
  {| HistoryItem.id := random_id (call_ambient c);
     HistoryItem.url := call_url c;
     HistoryItem.title := call_title c;
     HistoryItem.timestamp := now (call_ambient c) |}.

(** The single timer of a download started from the page fires once per
    period, drawing the next value of [Math.random()] each time. *)
Definition ticks (draws : list Q) (s : State) : State :=
  fold_left (fun st r => exec (interval_fires 0 r) st) draws s.


(* ================================================================== *)
(** ** Reference notions the properties are stated with *)
(* ================================================================== *)

(** The entry [videoQualities[1] || videoQualities[0]] picks from an array. *)
Definition picked (entries : list js_value) : js_value :=
  match entries with
  | first :: second :: _ => if truthy second then second else first
  | [first] => first
  | [] => JUndefined
  end.

(** [h => h.url !== videoUrl], on well-formed entries. *)
Definition other (videoUrl : string) (h : HistoryItem.t) : bool :=
  negb (String.eqb (HistoryItem.url h) videoUrl).

Definition urls (items : list HistoryItem.t) : list string :=
  map HistoryItem.url items.

(** The store's invariant: one entry per url, twenty entries at most. *)
Definition store_invariant (items : list HistoryItem.t) : Prop :=
  NoDup (urls items) /\ List.length items <= 20.

(** The order the claim asks for.  Given every write, the most recent one
    first, each url is listed once, at the place of its most recent
    write. *)
Fixpoint latest_first (writes : list HistoryItem.t) : list HistoryItem.t :=
  match writes with
  | [] => []
  | w :: older => w :: filter (other (HistoryItem.url w)) (latest_first older)
  end.


Definition is_string (v : js_value) : bool :=
  match v with JStr _ => true | _ => false end.

Definition is_array (v : js_value) : bool :=
  match v with JArr _ => true | _ => false end.

(** A record that has the types [interface VideoMetadata] declares. *)
Definition well_typed (m : VideoMetadata.t) (video audio : list js_value) : Prop :=
  is_string (VideoMetadata.title m) = true /\
  is_string (VideoMetadata.author m) = true /\
  is_string (VideoMetadata.duration m) = true /\
  VideoMetadata.videoQualities m = JArr video /\
  VideoMetadata.audioFormats m = JArr audio /\
  forallb is_string video = true /\ forallb is_string audio = true.

(** The record a reply leads to, if the provider call, the parse and the
    reading of the parsed data all go through. *)
Definition record_of_reply (reply : provider_reply) : option VideoMetadata.t :=
  match response_data reply with
  | Some data => videoInfo data
  | None => None
  end.

(* ================================================================== *)
(** ** The rest of the page: pasting, and the page as a whole *)
(* ================================================================== *)

(** [try { body } catch { handler }] *)
Definition try_catch (body handler : M unit) : M unit :=
  fun s =>
    match body s with
    | (Normal _, s1) => (Normal tt, s1)
    | (Abrupt, s1) => handler s1
    end.

Definition msg_clipboard : string := "Failed to access clipboard.".

(** [handlePaste]; [clipboard] is how [navigator.clipboard.readText()]
    settles: with a text, or not at all (it rejects, or raises). *)
Definition handlePaste (clipboard : option string) : M unit :=
  try_catch (text <- lift clipboard ;; setUrl text)
            (setError (Some msg_clipboard)).

(** Every code unit of the string is white space for [trim]. *)
Fixpoint all_space (s : string) : bool :=
  match s with
  | EmptyString => true
  | String c rest => is_js_space c && all_space rest
  end.

(** A storage slot as the page itself leaves it: absent, or the
    serialisation of a store of entries that satisfies the invariant.  The
    empty text, which the load skips, is allowed too. *)
Definition well_formed_slot (slot : option json_text) : Prop :=
  slot = None \/ slot = Some EmptyText \/
  exists items, store_invariant items /\
                slot = Some (JSON_stringify (history_value items)).

(** The states a page mounted over [slot] can be in.  Events are taken one
    at a time: the mount effect, typing into the link field, a paste, a
    click the page accepts, a pending resolution settling (it belongs to an
    earlier render), a timer or a timeout firing, and the clear button.
    Any event may come at any time and any number of times, which is more
    than the page allows; with well-formed entries this covers a click on a
    history entry too, which types the entry's url and then clicks at most
    the fetch button. *)
Inductive reachable (slot : option json_text) : State -> Prop :=
| reach_mount :
    completes loadHistory (initial slot) = true ->
    reachable slot (exec loadHistory (initial slot))
| reach_type (s : State) (text : string) :
    reachable slot s -> reachable slot (exec (setUrl text) s)
| reach_paste (s : State) (clipboard : option string) :
    reachable slot s -> reachable slot (exec (handlePaste clipboard) s)
| reach_click (s s' : State) (c : click) :
    reachable slot s -> ui_step s c s' -> reachable slot s'
| reach_settle (render s : State) (reply : provider_reply) (a : ambient) :
    reachable slot render -> reachable slot s ->
    reachable slot (exec (fetchQualities_resume render reply a) s)
| reach_tick (s : State) (k : nat) (r : Q) :
    reachable slot s -> random_draw r ->
    reachable slot (exec (interval_fires k r) s)
| reach_timeout (s : State) (k : nat) :
    reachable slot s -> reachable slot (exec (timeout_fires k) s)
| reach_clear (s : State) :
    reachable slot s -> reachable slot (exec clearHistory s).

(** The download task and its timers agree: while downloading there is
    exactly one timer or pending completion and [progress] lies in
    [[0, 115)]; otherwise there is none and [progress] is 0. *)
Definition download_consistent (s : State) : Prop :=
  (downloading s = true /\
   List.length (intervals s) + List.length (timeouts s) = 1 /\
   (0 <= progress s)%Q /\ (progress s < 115)%Q) \/
  (downloading s = false /\ intervals s = [] /\ timeouts s = [] /\
   progress s = 0%Q).

(** The selection belongs to the record on display: it is the selection the
    record started with, or an entry of one of its lists. *)
Definition selection_belongs (s : State) : Prop :=
  forall m,
    metadata s = Some m ->
    default_selection m = Some (selectedFormat s) \/
    exists video audio,
      VideoMetadata.videoQualities m = JArr video /\
      VideoMetadata.audioFormats m = JArr audio /\
      In (selectedFormat s) (video ++ audio).

(** The history is a store of well-formed entries that satisfies the
    invariant. *)
Definition history_well_formed (s : State) : Prop :=
  exists items, history s = history_value items /\ store_invariant items.

(* ================================================================== *)
(** ** Sample pages and replies *)
(* ================================================================== *)

(** Sample inputs used by the closed examples below. *)
Definition sample_ambient : ambient :=
  {| random_id := "k3j9x0qp1"; now := 1700000000000%Z; writable := true |}.

Definition sample_url : string := "https://example.com/v1".

(** A fresh page with [sample_url] typed into the link field. *)
Definition typed_page : State := exec (setUrl sample_url) (initial None).

(** The provider answers [{"title": "Demo"}]. *)
Definition reply_title_only : provider_reply :=
  Responded (Some (Encodes (JObj [("title", JStr "Demo")]))).

(** The provider answers [{"video_qualities": []}]. *)
Definition reply_no_video : provider_reply :=
  Responded (Some (Encodes (JObj [("video_qualities", JArr [])]))).

(** The page after a resolution that got [reply_title_only]. *)
Definition resolved_page : State :=
  exec (fetchQualities reply_title_only sample_ambient) typed_page.

Definition nonempty_array (v : js_value) : Prop :=
  match v with
  | JArr (_ :: _) => True
  | _ => False
  end.

(** The page right after "Download" is clicked on [resolved_page]. *)
Definition started_page : State := exec (startDownload resolved_page) resolved_page.

(** A download in flight at [progress = 15/2]. *)
Definition halfway_page : State := ticks [1 # 2]%Q started_page.

(** A page that shows a record while the link field holds blanks only. *)
Definition blank_link_page : State := exec (setUrl "   ") resolved_page.

(** Three calls on the empty store, the first url written again last. *)
Definition sample_calls : list record_call :=
  [ {| call_url := "https://a.example/1"; call_title := JStr "A";
       call_ambient := sample_ambient |};
    {| call_url := "https://b.example/2"; call_title := JStr "B";
       call_ambient := sample_ambient |};
    {| call_url := "https://a.example/1"; call_title := JStr "A again";
       call_ambient := sample_ambient |} ].

(* ================================================================== *)
(** * Properties *)
(* ================================================================== *)

(** ** Normalisation of the provider's data *)

Section Normalisation.

Variables (data : js_value) (info : VideoMetadata.t).
Hypothesis built : videoInfo data = Some info.

Lemma videoInfo_fields :
  exists t a th d vq af,
    prop data "title" = Some t /\ prop data "author" = Some a /\
    prop data "thumbnail_url" = Some th /\ prop data "duration" = Some d /\
    prop data "video_qualities" = Some vq /\
    prop data "audio_formats" = Some af /\
    info =
      {| VideoMetadata.title := js_or t (JStr "Unknown Media Content");
         VideoMetadata.author := js_or a (JStr "Content Creator");
         VideoMetadata.thumbnail := js_or th (JStr
           "https://images.unsplash.com/photo-1611162617474-5b21e879e113?auto=format&fit=crop&q=80&w=300&h=200");
         VideoMetadata.duration := js_or d (JStr "N/A");
         VideoMetadata.videoQualities := js_or vq default_videoQualities;
         VideoMetadata.audioFormats := js_or af default_audioFormats |}.
Proof.
  unfold videoInfo in built.
  destruct (prop data "title") as [t|]; [|discriminate].
  destruct (prop data "author") as [a|]; [|discriminate].
  destruct (prop data "thumbnail_url") as [th|]; [|discriminate].
  destruct (prop data "duration") as [d|]; [|discriminate].
  destruct (prop data "video_qualities") as [vq|]; [|discriminate].
  destruct (prop data "audio_formats") as [af|]; [|discriminate].
  exists t, a, th, d, vq, af.
  injection built as <-. repeat split; reflexivity.
Qed.

Lemma js_or_truthy (v d : js_value) :
  truthy d = true -> truthy (js_or v d) = true.
Proof.
  intros Hd. unfold js_or. destruct (truthy v) eqn:Hv; assumption.
Qed.

Lemma videoQualities_truthy : truthy (VideoMetadata.videoQualities info) = true.
Proof.
  destruct videoInfo_fields as (t & a & th & d & vq & af & _ & _ & _ & _ & _ & _ & ->).
  cbn [VideoMetadata.videoQualities]. apply js_or_truthy. reflexivity.
Qed.

Lemma elem_of_truthy (v : js_value) (i : nat) :
  truthy v = true -> exists x, elem v i = Some x.
Proof.
  destruct v; cbn; intros H; try discriminate; eauto.
Qed.

(** The default selection never raises on a normalised record. *)
Lemma default_selection_defined :
  exists selection, default_selection info = Some selection.
Proof.
  unfold default_selection.
  destruct (elem_of_truthy _ 1 videoQualities_truthy) as [second ->].
  destruct (truthy second); [eauto|].
  apply elem_of_truthy, videoQualities_truthy.
Qed.

End Normalisation.

(** ** Resuming a resolution *)

Ltac run_monad :=
  unfold exec, fetchQualities_resume, try_catch_finally, saveToHistory,
         localStorage_setItem, bind, lift, ret, throw, update,
         setMetadata, setSelectedFormat, setHistory, setError, setLoading;
  cbn [fst snd].

(** Unfold the handlers down to the record they build. *)
Ltac run_handlers :=
  cbv beta iota zeta delta
      [fetchQualities fetchQualities_begin fetchQualities_resume
       try_catch_finally saveToHistory localStorage_setItem exec
       bind lift ret throw update
       setMetadata setSelectedFormat setHistory setError setLoading
       setDownloading setProgress set_slot
       fst snd negb url loading metadata selectedFormat downloading progress
       history error localStorage intervals timeouts alerts].

(** What a resumed resolution leaves behind once the record is built,
    whether or not [saveToHistory] then raises. *)
Lemma resume_installs (render : State) (reply : provider_reply) (a : ambient)
      (s : State) (data : js_value) (info : VideoMetadata.t)
      (selection : js_value) :
  response_data reply = Some data ->
  videoInfo data = Some info ->
  default_selection info = Some selection ->
  let s' := exec (fetchQualities_resume render reply a) s in
  metadata s' = Some info /\ selectedFormat s' = selection /\
  loading s' = false /\
  downloading s' = downloading s /\ progress s' = progress s /\
  intervals s' = intervals s /\ timeouts s' = timeouts s /\
  alerts s' = alerts s /\ url s' = url s.
Proof.
  intros Hdata Hinfo Hsel. run_monad.
  rewrite Hdata, Hinfo. cbn. rewrite Hsel. cbn.
  destruct (array_filter _ _) as [kept|]; cbn.
  - destruct (writable a); cbn; repeat split; reflexivity.
  - repeat split; reflexivity.
Qed.

(** ** C1: fallback lists *)

(** C1 on the code: the claim asks for two non-empty lists after every
    successful resolution.  When the provider answers
    [{"video_qualities": []}] the resolution succeeds (a record is
    installed, no error is shown) and the record's [videoQualities] is the
    empty array: an empty array is truthy, so [||] does not fall back to the
    default list. *)
Lemma C1_empty_list_is_kept :
  let s := exec (fetchQualities reply_no_video sample_ambient) typed_page in
  error s = None /\
  exists m, metadata s = Some m /\
            VideoMetadata.videoQualities m = JArr [] /\
            ~ nonempty_array (VideoMetadata.videoQualities m).
Proof.
  cbn. split; [reflexivity|].
  eexists. split; [reflexivity|]. split; [reflexivity|]. cbn. tauto.
Qed.

(** What the fallback does give: in every resolution that builds a record,
    the record is installed, and its [videoQualities] (resp. [audioFormats])
    is the fixed
    3-element default list when the provider's data carries no such
    property or a falsy one, and the provider's own value otherwise, each
    field on its own; so each list is a non-empty array whenever the
    provider's value is absent, falsy or a non-empty array. *)
Theorem fallback_lists (render : State) (reply : provider_reply)
        (a : ambient) (s : State) (data : js_value) (info : VideoMetadata.t) :
  response_data reply = Some data ->
  videoInfo data = Some info ->
  metadata (exec (fetchQualities_resume render reply a) s) = Some info /\
  exists vq af,
    prop data "video_qualities" = Some vq /\
    prop data "audio_formats" = Some af /\
    VideoMetadata.videoQualities info
      = (if truthy vq then vq
         else JArr [JStr "360p (SD)"; JStr "720p (HD)"; JStr "1080p (Full HD)"]) /\
    VideoMetadata.audioFormats info
      = (if truthy af then af
         else JArr [JStr "MP3 128kbps"; JStr "MP3 320kbps"; JStr "AAC (Original)"]) /\
    (truthy vq = false \/ nonempty_array vq ->
     nonempty_array (VideoMetadata.videoQualities info)) /\
    (truthy af = false \/ nonempty_array af ->
     nonempty_array (VideoMetadata.audioFormats info)).
Proof.
  intros Hdata Hinfo. split.
  - destruct (default_selection_defined data info Hinfo) as [sel Hsel].
    apply (resume_installs render reply a s data info sel Hdata Hinfo Hsel).
  - destruct (videoInfo_fields data info Hinfo)
      as (t & au & th & d & vq & af & _ & _ & _ & _ & Hvq & Haf & ->).
    exists vq, af. cbn [VideoMetadata.videoQualities VideoMetadata.audioFormats].
    unfold js_or, default_videoQualities, default_audioFormats.
    repeat split; try assumption.
    + intros [Hf|Hne]; [rewrite Hf; exact I|].
      destruct (truthy vq); [assumption|exact I].
    + intros [Hf|Hne]; [rewrite Hf; exact I|].
      destruct (truthy af); [assumption|exact I].
Qed.

Lemma fallback_lists_example :
  let data := JObj [("title", JStr "Demo")] in
  exists info,
    videoInfo data = Some info /\
    metadata (exec (fetchQualities_resume typed_page reply_title_only
                      sample_ambient) typed_page) = Some info /\
    nonempty_array (VideoMetadata.videoQualities info) /\
    nonempty_array (VideoMetadata.audioFormats info).
Proof.
  cbv zeta.
  destruct (videoInfo (JObj [("title", JStr "Demo")])) as [info|] eqn:Hinfo;
    [|discriminate Hinfo].
  exists info. split; [reflexivity|].
  destruct (fallback_lists typed_page reply_title_only sample_ambient
              typed_page _ info eq_refl Hinfo)
    as (Hmeta & vq & af & Hvq & Haf & _ & _ & Hv & Ha).
  split; [exact Hmeta|].
  cbn in Hvq, Haf. injection Hvq as <-. injection Haf as <-.
  split; [apply Hv|apply Ha]; left; reflexivity.
Defined.

(** ** C10: the selection a new record starts with *)

Lemma default_selection_array (info : VideoMetadata.t) (entries : list js_value) :
  VideoMetadata.videoQualities info = JArr entries ->
  default_selection info = Some (picked entries).
Proof.
  intros H. unfold default_selection. rewrite H.
  destruct entries as [|first [|second rest]]; cbn; try reflexivity.
  destruct (truthy second); reflexivity.
Qed.

(** C10, as stated, fails: with [{"video_qualities": []}] the record has an
    empty [videoQualities] and a non-empty [audioFormats], and the selection
    becomes [undefined], not the first audio format. *)
Lemma C10_no_audio_fallback :
  let s := exec (fetchQualities reply_no_video sample_ambient) typed_page in
  exists m, metadata s = Some m /\
            VideoMetadata.videoQualities m = JArr [] /\
            elem (VideoMetadata.audioFormats m) 0 = Some (JStr "MP3 128kbps") /\
            selectedFormat s = JUndefined /\
            selectedFormat s <> JStr "MP3 128kbps".
Proof.
  cbn. eexists. repeat split; try reflexivity. discriminate.
Qed.

(** C10, amended: whenever a resolution installs a record whose
    [videoQualities] is an array, [selectedFormat] becomes its second entry
    if there are at least two entries and the second one is truthy, else its
    first entry, and [undefined] when the array is empty; [audioFormats] is
    not consulted. *)
Theorem C10_initial_selection (render : State) (reply : provider_reply)
        (a : ambient) (s : State) (data : js_value) (info : VideoMetadata.t)
        (entries : list js_value) :
  response_data reply = Some data ->
  videoInfo data = Some info ->
  VideoMetadata.videoQualities info = JArr entries ->
  let s' := exec (fetchQualities_resume render reply a) s in
  metadata s' = Some info /\
  selectedFormat s' =
    match entries with
    | first :: second :: _ => if truthy second then second else first
    | [first] => first
    | [] => JUndefined
    end.
Proof.
  intros Hdata Hinfo Harr s'.
  pose proof (default_selection_array info entries Harr) as Hsel.
  destruct (resume_installs render reply a s data info _ Hdata Hinfo Hsel)
    as (Hm & Hs & _).
  split; [exact Hm|exact Hs].
Qed.

Lemma C10_initial_selection_witness :
  selectedFormat
    (exec (fetchQualities_resume typed_page reply_title_only sample_ambient)
          typed_page) = JStr "720p (HD)".
Proof.
  destruct (videoInfo (JObj [("title", JStr "Demo")])) as [info|] eqn:Hinfo;
    [|discriminate Hinfo].
  pose proof Hinfo as Hshape. cbv in Hshape. injection Hshape as Hshape.
  refine (proj2 (C10_initial_selection typed_page reply_title_only
                   sample_ambient typed_page _ info
                   [JStr "360p (SD)"; JStr "720p (HD)"; JStr "1080p (Full HD)"]
                   eq_refl Hinfo _)).
  rewrite <- Hshape. reflexivity.
Defined.

(** ** C2: the History Store *)

Lemma other_url_value (videoUrl : string) (h : HistoryItem.t) :
  other_url videoUrl (HistoryItem.value h) = Some (other videoUrl h).
Proof.
  unfold other_url, other. cbn. reflexivity.
Qed.

Lemma filter_items_value (videoUrl : string) (items : list HistoryItem.t) :
  filter_items (other_url videoUrl) (map HistoryItem.value items)
  = Some (map HistoryItem.value (filter (other videoUrl) items)).
Proof.
  induction items as [|h rest IH]; [reflexivity|].
  cbn [map filter_items filter].
  rewrite other_url_value, IH.
  destruct (other videoUrl h); reflexivity.
Qed.

(** One call, on a store of well-formed entries. *)
Lemma record_value (s : State) (c : record_call) (items : list HistoryItem.t) :
  history s = history_value items ->
  history (record s c)
  = history_value
      (firstn 20 (entry_of c :: filter (other (call_url c)) items)).
Proof.
  intros H. unfold record, saveToHistory, exec, bind, lift.
  rewrite H. unfold history_value at 1, array_filter.
  rewrite filter_items_value. unfold ret, history_value.
  change (HistoryItem.value _ :: map HistoryItem.value ?l)
    with (map HistoryItem.value (entry_of c :: l)).
  rewrite firstn_map.
  unfold localStorage_setItem. destruct (writable (call_ambient c)); reflexivity.
Qed.

Lemma urls_filter_out (u : string) (items : list HistoryItem.t) :
  ~ In u (urls (filter (other u) items)).
Proof.
  unfold urls. rewrite in_map_iff. intros (h & Hu & Hin).
  apply filter_In in Hin as [_ Hkeep]. unfold other in Hkeep.
  rewrite Hu, String.eqb_refl in Hkeep. discriminate.
Qed.

Lemma urls_filter_NoDup (p : HistoryItem.t -> bool) (items : list HistoryItem.t) :
  NoDup (urls items) -> NoDup (urls (filter p items)).
Proof.
  unfold urls. induction items as [|h rest IH]; cbn; intros Hnd; [constructor|].
  inversion Hnd as [|? ? Hnotin Hrest]; subst.
  destruct (p h); cbn; [constructor|]; auto.
  intros Hin. apply Hnotin.
  apply in_map_iff in Hin as (x & Hx & Hin).
  apply in_map_iff. exists x. split; [assumption|].
  apply filter_In in Hin. tauto.
Qed.

Lemma filter_absent (u : string) (items : list HistoryItem.t) :
  ~ In u (urls items) -> filter (other u) items = items.
Proof.
  unfold urls. induction items as [|h rest IH]; cbn; intros Hnotin; [reflexivity|].
  unfold other at 1.
  destruct (String.eqb_spec (HistoryItem.url h) u) as [Heq|Hneq]; cbn.
  - exfalso. apply Hnotin. left. assumption.
  - f_equal. apply IH. intros Hin. apply Hnotin. right. assumption.
Qed.

Lemma latest_first_NoDup (writes : list HistoryItem.t) :
  NoDup (urls (latest_first writes)).
Proof.
  induction writes as [|w older IH]; cbn; constructor.
  - apply (urls_filter_out (HistoryItem.url w)).
  - apply urls_filter_NoDup, IH.
Qed.

Lemma latest_first_fixed (items : list HistoryItem.t) :
  NoDup (urls items) -> latest_first items = items.
Proof.
  induction items as [|h rest IH]; cbn; intros Hnd; [reflexivity|].
  inversion Hnd as [|? ? Hnotin Hrest]; subst.
  rewrite (IH Hrest). f_equal. apply filter_absent, Hnotin.
Qed.

Lemma urls_firstn_absent (u : string) (n : nat) (items : list HistoryItem.t) :
  ~ In u (urls items) -> ~ In u (urls (firstn n items)).
Proof.
  unfold urls. revert n. induction items as [|h rest IH]; intros [|n]; cbn; try tauto.
  intros Hnotin [Heq|Hin]; [tauto|]. apply (IH n); tauto.
Qed.

(** Truncating before or after removing one url's entry agrees on the
    first [n] survivors, because at most one entry is removed. *)
Lemma truncate_then_filter (u : string) (items : list HistoryItem.t) :
  NoDup (urls items) ->
  forall n, firstn n (filter (other u) (firstn (S n) items))
            = firstn n (filter (other u) items).
Proof.
  induction items as [|h rest IH]; intros Hnd n; [reflexivity|].
  inversion Hnd as [|? ? Hnotin Hrest]; subst.
  cbn [firstn filter]. destruct (other u h) eqn:Hkeep.
  - destruct n as [|n]; [reflexivity|].
    cbn [firstn]. f_equal. apply IH, Hrest.
  - unfold other in Hkeep.
    apply negb_false_iff, String.eqb_eq in Hkeep. subst u.
    rewrite (filter_absent _ rest Hnotin).
    rewrite (filter_absent _ (firstn n rest) (urls_firstn_absent _ n rest Hnotin)).
    apply firstn_all2. apply firstn_le_length.
Qed.

(** The store keeps the same 20 entries whether or not the list it
    filters had been cut to 20 before. *)
Lemma cut_once (x : HistoryItem.t) (u : string) (items : list HistoryItem.t) :
  NoDup (urls items) ->
  firstn 20 (x :: filter (other u) (firstn 20 items))
  = firstn 20 (x :: filter (other u) items).
Proof.
  intros Hnd. rewrite !firstn_cons. f_equal.
  apply truncate_then_filter, Hnd.
Qed.

Lemma urls_firstn_NoDup (n : nat) (items : list HistoryItem.t) :
  NoDup (urls items) -> NoDup (urls (firstn n items)).
Proof.
  revert n. induction items as [|h rest IH]; intros [|n] Hnd; cbn; try constructor.
  - inversion Hnd; subst. apply (urls_firstn_absent _ n rest). assumption.
  - inversion Hnd; subst. apply IH. assumption.
Qed.

Lemma records_snoc (s : State) (calls : list record_call) (c : record_call) :
  records s (calls ++ [c]) = record (records s calls) c.
Proof.
  unfold records. rewrite fold_left_app. reflexivity.
Qed.

(** The store after a run of calls, entry for entry. *)
Lemma records_history (s : State) (items0 : list HistoryItem.t)
      (calls : list record_call) :
  history s = history_value items0 ->
  store_invariant items0 ->
  history (records s calls)
  = history_value
      (firstn 20 (latest_first (rev (map entry_of calls) ++ items0))).
Proof.
  intros Hs [Hnd Hlen].
  induction calls as [|c calls IH] using rev_ind.
  - change (records s []) with s.
    change (rev (map entry_of []) ++ items0) with items0.
    rewrite (latest_first_fixed items0 Hnd).
    rewrite (firstn_all2 items0 Hlen). exact Hs.
  - rewrite records_snoc, (record_value _ c _ IH).
    rewrite cut_once by apply latest_first_NoDup.
    rewrite map_app, rev_app_distr. reflexivity.
Qed.

(** C2: from a store that holds one entry per url and at most 20 entries
    (the empty store among them), after every run of [record(url, title)]
    calls, hence after each call of it, the store holds one entry per url
    and at most 20 entries, and lists them most recent write first: it is
    the list of all writes so far, latest first and followed by the initial
    entries, with every url kept at its most recent write only, cut to its
    first 20. *)
Theorem C2_history_invariant (s : State) (items0 : list HistoryItem.t)
        (calls : list record_call) :
  history s = history_value items0 ->
  NoDup (map HistoryItem.url items0) ->
  List.length items0 <= 20 ->
  exists items,
    history (records s calls) = history_value items /\
    NoDup (map HistoryItem.url items) /\
    List.length items <= 20 /\
    items = firstn 20 (latest_first
                         (rev (map entry_of calls) ++ items0)).
Proof.
  intros Hs Hnd Hlen.
  exists (firstn 20 (latest_first (rev (map entry_of calls) ++ items0))).
  split; [apply records_history; [assumption|split; assumption]|].
  split; [|split; [apply firstn_le_length|reflexivity]].
  apply urls_firstn_NoDup, latest_first_NoDup.
Qed.

Lemma C2_history_invariant_witness :
  exists items,
    history (records (initial None) sample_calls) = history_value items /\
    NoDup (map HistoryItem.url items) /\
    List.length items <= 20 /\
    map HistoryItem.url items = ["https://a.example/1"; "https://b.example/2"] /\
    map HistoryItem.title items = [JStr "A again"; JStr "B"].
Proof.
  destruct (C2_history_invariant (initial None) [] sample_calls)
    as (items & Hh & Hnd & Hlen & Heq).
  - reflexivity.
  - constructor.
  - cbn. lia.
  - exists items. repeat split; try assumption; rewrite Heq; reflexivity.
Defined.

(** ** C3, C4: the progress timer *)

Section Timer.

Local Open Scope Q_scope.

Lemma below_100 (p : Q) : p < 100 -> Qle_bool 100 p = false.
Proof.
  intros H. destruct (Qle_bool 100 p) eqn:E; [|reflexivity].
  apply Qle_bool_iff in E. lra.
Qed.

Lemma at_least_100 (p : Q) : 100 <= p -> Qle_bool 100 p = true.
Proof. apply Qle_bool_iff. Qed.

(** A tick below 100 only moves [progress]. *)
Lemma tick_below (s : State) (k : nat) (n : notice) (r : Q) :
  nth_error (intervals s) k = Some n ->
  progress s < 100 ->
  exec (interval_fires k r) s = exec (setProgress (progress s + r * 15)) s.
Proof.
  intros Hk Hp. unfold interval_fires, exec, bind, read. cbn [fst snd].
  rewrite Hk, (below_100 _ Hp). reflexivity.
Qed.

(** A tick at 100 or above pins [progress], stops its timer and schedules
    the completion. *)
Lemma tick_pins (s : State) (k : nat) (n : notice) (r : Q) :
  nth_error (intervals s) k = Some n ->
  100 <= progress s ->
  exec (interval_fires k r) s
  = exec (clearInterval k ;; setTimeout n ;; setProgress 100) s.
Proof.
  intros Hk Hp. unfold interval_fires, exec, bind, read. cbn [fst snd].
  rewrite Hk, (at_least_100 _ Hp). reflexivity.
Qed.

Lemma progress_after_tick_below (s : State) (v : Q) :
  progress (exec (setProgress v) s) = v.
Proof. reflexivity. Qed.

Lemma progress_after_pin (s : State) (k : nat) (n : notice) :
  progress (exec (clearInterval k ;; setTimeout n ;; setProgress 100) s) = 100.
Proof. reflexivity. Qed.





End Timer.

Section Download.

Local Open Scope Q_scope.



(** C3, as stated, fails.  [Math.random()] may return 0, and the tick then
    adds nothing; and a tick is not clamped: eight draws of 7/8 take
    [progress] from 0 to 105, above 100, and the next tick brings it down
    to 100. *)
Lemma C3_zero_step_and_overshoot :
  random_draw 0 /\
  progress (exec (interval_fires 0 0) started_page) == progress started_page /\
  Forall random_draw (repeat (7 # 8) 8) /\
  progress (ticks (repeat (7 # 8) 8) started_page) == 105 /\
  progress (exec (interval_fires 0 0)
              (ticks (repeat (7 # 8) 8) started_page)) == 100.
Proof.
  split; [unfold random_draw; lra|].
  split; [vm_compute; reflexivity|].
  split; [repeat constructor; unfold Qle, Qlt; cbn; lia|].
  split; vm_compute; reflexivity.
Qed.

(** C3, amended: while a timer of the download runs, a tick taken with
    [progress] below 100 adds 15 times a draw of [[0, 1)], an increment
    of at least 0 and strictly less than 15, so [progress] does not
    decrease over it; a tick taken at 100 or above sets [progress] to
    exactly 100; and [progress] never becomes negative. *)
Theorem C3_tick (s : State) (k : nat) (n : notice) (r : Q) :
  nth_error (intervals s) k = Some n ->
  random_draw r ->
  0 <= progress s ->
  let s' := exec (interval_fires k r) s in
  (progress s < 100 ->
   0 <= r * 15 /\ r * 15 < 15 /\
   progress s' = progress s + r * 15 /\ progress s <= progress s') /\
  (100 <= progress s -> progress s' = 100) /\
  0 <= progress s'.
Proof.
  intros Hk [Hr0 Hr1] Hp s'. subst s'.
  split; [|split].
  - intros Hlt.
    rewrite (tick_below s k n r Hk Hlt), progress_after_tick_below.
    repeat split; try reflexivity; lra.
  - intros Hge. rewrite (tick_pins s k n r Hk Hge). reflexivity.
  - destruct (Qlt_le_dec (progress s) 100) as [Hlt|Hge].
    + rewrite (tick_below s k n r Hk Hlt), progress_after_tick_below. lra.
    + rewrite (tick_pins s k n r Hk Hge), progress_after_pin. lra.
Qed.

Lemma C3_tick_witness :
  random_draw (1 # 2) /\
  progress (exec (interval_fires 0 (1 # 2)) started_page)
  = progress started_page + (1 # 2) * 15.
Proof.
  assert (Hdraw : random_draw (1 # 2)) by (unfold random_draw; lra).
  split; [exact Hdraw|].
  refine (proj1 (proj2 (proj2
    (proj1 (C3_tick started_page 0 (completion_notice resolved_page) (1 # 2)
              eq_refl Hdraw _) _)))).
  - change (progress started_page) with 0. lra.
  - change (progress started_page) with 0. lra.
Defined.

End Download.

Section Completion.

Local Open Scope Q_scope.







End Completion.

(** ** C5: selecting a format *)

Lemma strings_renderable (labels : list js_value) :
  forallb is_string labels = true -> forallb renderable labels = true.
Proof.
  induction labels as [|v rest IH]; [reflexivity|].
  cbn [forallb]. intros H. apply andb_true_iff in H as [Hv Hrest].
  rewrite (IH Hrest). destruct v; try discriminate. reflexivity.
Qed.

Lemma string_renderable (v : js_value) : is_string v = true -> renderable v = true.
Proof. destruct v; try discriminate. reflexivity. Qed.

Lemma button_row_labels (labels : js_value) (row : list js_value) :
  button_row labels = Some row -> labels = JArr row.
Proof.
  destruct labels; try discriminate. cbn.
  destruct (forallb renderable items); [|discriminate].
  intros H. injection H as <-. reflexivity.
Qed.

(** Every format button carries an entry of one of the record's lists. *)
Lemma format_buttons_listed (s : State) (label : js_value) :
  In label (format_buttons s) ->
  exists m video audio,
    metadata s = Some m /\
    VideoMetadata.videoQualities m = JArr video /\
    VideoMetadata.audioFormats m = JArr audio /\
    In label (video ++ audio).
Proof.
  unfold format_buttons, results_section.
  destruct (metadata s) as [m|].
  2:{ destruct (history s); intros []. }
  destruct (loading s).
  { destruct (history s); intros []. }
  destruct (button_row (VideoMetadata.videoQualities m)) as [video|] eqn:Hv.
  2:{ destruct (history s); intros []. }
  destruct (button_row (VideoMetadata.audioFormats m)) as [audio|] eqn:Ha.
  2:{ destruct (history s); intros []. }
  apply button_row_labels in Hv, Ha.
  destruct (_ && _).
  2:{ destruct (history s); intros []. }
  intros Hin. exists m, video, audio.
  repeat split; try assumption.
  destruct (history s); try contradiction; assumption.
Qed.

(** On a page that shows a well-typed record, the buttons are exactly the
    entries of the two lists. *)
Lemma format_buttons_typed (s : State) (m : VideoMetadata.t)
      (video audio : list js_value) :
  metadata s = Some m -> loading s = false ->
  well_typed m video audio ->
  is_array (history s) = true ->
  downloading s || renderable (selectedFormat s) = true ->
  format_buttons s = video ++ audio.
Proof.
  intros Hm Hl (Ht & Hau & Hd & Hv & Ha & Hvs & Has) Hh Hsel.
  unfold format_buttons, results_section. rewrite Hm, Hl, Hv, Ha.
  cbn [button_row].
  rewrite (strings_renderable _ Hvs), (strings_renderable _ Has).
  rewrite (string_renderable _ Ht), (string_renderable _ Hau),
          (string_renderable _ Hd), Hsel.
  destruct (history s); try discriminate. reflexivity.
Qed.

(** C5, as stated, fails: nothing fails with an error.  The only selection
    operation is the setter, which takes any label: given the default
    lists, it sets ["4K"], a label in neither list, and raises nothing. *)
Lemma C5_setter_takes_any_label :
  ~ In (JStr "4K") (format_buttons resolved_page) /\
  setSelectedFormat (JStr "4K") resolved_page
  = (Normal tt, exec (setSelectedFormat (JStr "4K")) resolved_page) /\
  selectedFormat (exec (setSelectedFormat (JStr "4K")) resolved_page) = JStr "4K" /\
  error (exec (setSelectedFormat (JStr "4K")) resolved_page) = None.
Proof.
  split; [|repeat split; reflexivity].
  cbn. intros H.
  repeat (destruct H as [H|H]; [discriminate H|]). exact H.
Qed.

(** C5, amended: a label can be selected from the page exactly when a
    format button carries it, and every such button carries an entry of the
    current record's [videoQualities] or [audioFormats]; on a page that
    shows a well-typed record the buttons are exactly those entries.
    Clicking one sets [selectedFormat] to its label unconditionally and
    changes nothing else that is shown as an error.  For any other label
    there is no button, hence no selection step: [selectedFormat] stays,
    and no error is raised. *)
Theorem C5_selection (s : State) (label : js_value) :
  (forall s', ui_step s (ClickFormat label) s'
              <-> In label (format_buttons s) /\
                  s' = exec (setSelectedFormat label) s) /\
  (In label (format_buttons s) ->
   exists m video audio,
     metadata s = Some m /\
     VideoMetadata.videoQualities m = JArr video /\
     VideoMetadata.audioFormats m = JArr audio /\
     In label (video ++ audio)) /\
  (forall m video audio,
      metadata s = Some m -> loading s = false ->
      well_typed m video audio ->
      is_array (history s) = true ->
      downloading s || renderable (selectedFormat s) = true ->
      (In label (format_buttons s) <-> In label (video ++ audio))) /\
  selectedFormat (exec (setSelectedFormat label) s) = label /\
  error (exec (setSelectedFormat label) s) = error s /\
  metadata (exec (setSelectedFormat label) s) = metadata s.
Proof.
  split; [|split; [|split]].
  - intros s'. split.
    + intros Hstep. inversion Hstep; subst. split; [assumption|reflexivity].
    + intros [Hin ->]. constructor. assumption.
  - apply format_buttons_listed.
  - intros m video audio Hm Hl Hty Hh Hsel.
    rewrite (format_buttons_typed s m video audio Hm Hl Hty Hh Hsel). tauto.
  - repeat split; reflexivity.
Qed.

Lemma C5_selection_witness :
  In (JStr "1080p (Full HD)") (format_buttons resolved_page) /\
  ui_step resolved_page (ClickFormat (JStr "1080p (Full HD)"))
          (exec (setSelectedFormat (JStr "1080p (Full HD)")) resolved_page) /\
  forall s', ~ ui_step resolved_page (ClickFormat (JStr "4K")) s'.
Proof.
  assert (Hin : In (JStr "1080p (Full HD)") (format_buttons resolved_page))
    by (cbn; do 2 right; left; reflexivity).
  split; [exact Hin|]. split.
  - apply (proj1 (C5_selection resolved_page (JStr "1080p (Full HD)"))).
    split; [exact Hin|reflexivity].
  - intros s' Hstep.
    apply (proj1 (C5_selection resolved_page (JStr "4K"))) in Hstep.
    destruct Hstep as [Hno _]. cbn in Hno.
    repeat (destruct Hno as [Hno|Hno]; [discriminate Hno|]). exact Hno.
Defined.

(** ** C6: starting a download *)

(** C6, as stated, fails.  With no format selected, [startDownload]
    returns without raising or reporting anything.  And [startDownload]
    itself does not look at [downloading]: run while a download is in
    flight at 15/2, it resets [progress] to 0 and starts a second timer. *)
Lemma C6_no_error_and_restart :
  (truthy (selectedFormat typed_page) = false /\
   startDownload typed_page typed_page = (Normal tt, typed_page) /\
   error typed_page = None) /\
  (downloading halfway_page = true /\
   (progress halfway_page == 15 # 2)%Q /\
   (progress (exec (startDownload halfway_page) halfway_page) == 0)%Q /\
   List.length (intervals (exec (startDownload halfway_page) halfway_page)) = 2).
Proof.
  split; repeat split; vm_compute; reflexivity.
Qed.

(** C6, amended: with no format selected, [startDownload] returns at once,
    raising nothing and leaving every part of the state as it was (no error
    is reported); while a download is running the "Download" button is
    disabled, so no click on it starts anything and the task's state is
    left as it was. *)
Theorem C6_start_guards (s : State) :
  (truthy (selectedFormat s) = false ->
   forall current, startDownload s current = (Normal tt, current)) /\
  (downloading s = true ->
   download_button_enabled s = false /\
   forall s', ~ ui_step s ClickDownload s').
Proof.
  split.
  - intros Hsel current. unfold startDownload. rewrite Hsel. reflexivity.
  - intros Hd.
    assert (Hoff : download_button_enabled s = false).
    { unfold download_button_enabled. rewrite Hd.
      destruct (history s), (metadata s), (results_section s);
        try reflexivity; apply andb_false_r. }
    split; [exact Hoff|].
    intros s' Hstep. inversion Hstep as [| ? Hon |]; subst.
    rewrite Hoff in Hon. discriminate.
Qed.

Lemma C6_start_guards_witness :
  (truthy (selectedFormat typed_page) = false /\
   startDownload typed_page typed_page = (Normal tt, typed_page)) /\
  (downloading halfway_page = true /\
   forall s', ~ ui_step halfway_page ClickDownload s').
Proof.
  assert (Hsel : truthy (selectedFormat typed_page) = false) by reflexivity.
  assert (Hd : downloading halfway_page = true) by reflexivity.
  split; split; try assumption.
  - exact (proj1 (C6_start_guards typed_page) Hsel typed_page).
  - exact (proj2 (proj2 (C6_start_guards halfway_page) Hd)).
Defined.

(** ** C7: resolving while a download runs *)




(** ** C8: loading the persisted history *)

(** C8 on the code: an absent or empty persisted text leaves the history
    empty and raises nothing, and a text that parses is installed as the
    history, as the claim says; but a persisted text that does not parse
    makes [JSON.parse] raise out of the mount effect, which has no handler
    around it, instead of yielding the empty history; and a text that
    parses to something other than a list of entries (the number 5, say)
    is installed as it is. *)
Theorem C8_load_on_start :
  loadHistory (initial None) = (Normal tt, initial None) /\
  loadHistory (initial (Some EmptyText)) = (Normal tt, initial (Some EmptyText)) /\
  (forall items,
      let text := JSON_stringify (history_value items) in
      loadHistory (initial (Some text)) = (Normal tt, exec (setHistory (history_value items))
                                                    (initial (Some text)))) /\
  loadHistory (initial (Some Malformed)) = (Abrupt, initial (Some Malformed)) /\
  completes loadHistory (initial (Some Malformed)) = false /\
  history (exec loadHistory (initial (Some (Encodes (JNum 5%Q))))) = JNum 5%Q.
Proof.
  repeat split; reflexivity.
Qed.

(** ** C9: a resolution that fails *)

(** C9, as stated, fails: on a blank link the handler reports the error and
    returns before anything is cleared, so the record on display stays. *)
Lemma C9_record_stays_on_blank_link :
  trim (url blank_link_page) = "" /\
  metadata blank_link_page <> None /\
  let s := exec (fetchQualities Rejected sample_ambient) blank_link_page in
  error s = Some msg_no_link /\
  metadata s = metadata blank_link_page /\
  metadata s <> None.
Proof.
  repeat split; try reflexivity; cbn; discriminate.
Qed.

(** C9, amended: when the link is empty or blank, the handler reports the
    error without contacting the provider and changes nothing else, so the
    record on display stays; when the provider call, the parse or the
    reading of the parsed data raises, the record on display is cleared and
    the error is reported, whatever else happened while the call was
    pending.  In both cases the History Store, in memory and persisted, is
    left exactly as it was. *)
Theorem C9_failed_resolution (s : State) (reply : provider_reply) (a : ambient) :
  (string_truthy (trim (url s)) = false ->
   fetchQualities_begin s s = (Normal false, exec (setError (Some msg_no_link)) s) /\
   fetchQualities reply a s = (Normal tt, exec (setError (Some msg_no_link)) s)) /\
  (string_truthy (trim (url s)) = true ->
   record_of_reply reply = None ->
   fst (fetchQualities_begin s s) = Normal true /\
   (forall current,
       fetchQualities_resume s reply a current
       = (Normal tt, exec (setError (Some msg_fetch_failed) ;; setLoading false)
                          current)) /\
   let s' := exec (fetchQualities reply a) s in
   metadata s' = None /\ error s' = Some msg_fetch_failed /\
   loading s' = false /\
   history s' = history s /\ localStorage s' = localStorage s /\
   selectedFormat s' = selectedFormat s).
Proof.
  destruct s as [u l m sf d pr h e ls iv tm al]. cbn [url].
  split.
  - intros Hblank. run_handlers. rewrite Hblank. split; reflexivity.
  - intros Hlink Hfail. unfold record_of_reply in Hfail.
    split; [|split].
    + run_handlers. rewrite Hlink. reflexivity.
    + intros current. run_handlers.
      destruct (response_data reply) as [data|]; [|reflexivity].
      rewrite Hfail. reflexivity.
    + run_handlers. rewrite Hlink. cbv beta iota zeta.
      destruct (response_data reply) as [data|];
        [rewrite Hfail|]; repeat split; reflexivity.
Qed.

Lemma C9_failed_resolution_witness :
  (string_truthy (trim (url blank_link_page)) = false /\
   history (exec (fetchQualities Rejected sample_ambient) blank_link_page)
   = history blank_link_page) /\
  (string_truthy (trim (url resolved_page)) = true /\
   record_of_reply (Responded (Some Malformed)) = None /\
   metadata (exec (fetchQualities (Responded (Some Malformed)) sample_ambient)
                  resolved_page) = None /\
   history (exec (fetchQualities (Responded (Some Malformed)) sample_ambient)
                 resolved_page) = history resolved_page).
Proof.
  assert (Hblank : string_truthy (trim (url blank_link_page)) = false)
    by reflexivity.
  assert (Hlink : string_truthy (trim (url resolved_page)) = true)
    by reflexivity.
  assert (Hfail : record_of_reply (Responded (Some Malformed)) = None)
    by reflexivity.
  split; split; try assumption.
  - pose proof (proj2 (proj1 (C9_failed_resolution blank_link_page Rejected
                                sample_ambient) Hblank)) as Hrun.
    unfold exec. rewrite Hrun. reflexivity.
  - split; [exact Hfail|].
    destruct (proj2 (C9_failed_resolution resolved_page
                       (Responded (Some Malformed)) sample_ambient) Hlink Hfail)
      as (_ & _ & Hrun).
    cbv zeta in Hrun. split; [apply Hrun|]. apply Hrun.
Defined.

(* ================================================================== *)
(** * Further properties of the code *)
(* ================================================================== *)

(** ** How a resolution ends *)

Lemma array_filter_value (videoUrl : string) (items : list HistoryItem.t) :
  array_filter (other_url videoUrl) (history_value items)
  = Some (map HistoryItem.value (filter (other videoUrl) items)).
Proof.
  unfold history_value, array_filter. apply filter_items_value.
Qed.

Lemma videoInfo_raises_on (data : js_value) :
  videoInfo data = None -> data = JNull \/ data = JUndefined.
Proof.
  destruct data; cbn; intros H; try discriminate; auto.
Qed.

(** A resolution builds no record exactly when the provider call rejects,
    when the response text is not JSON, or when it is the JSON text
    [null]; every other reply, an absent or empty text included, builds
    one. *)
Theorem resolution_fails_iff (reply : provider_reply) :
  record_of_reply reply = None <->
  reply = Rejected \/ reply = Responded (Some Malformed) \/
  reply = Responded (Some (Encodes JNull)) \/
  reply = Responded (Some (Encodes JUndefined)).
Proof.
  split.
  - unfold record_of_reply. destruct reply as [|[[| |v]|]]; cbn; auto;
      try discriminate.
    intros H. destruct (videoInfo_raises_on v H) as [-> | ->]; auto.
  - intros [-> | [-> | [-> | ->]]]; reflexivity.
Qed.

Lemma resolution_fails_iff_witness :
  record_of_reply (Responded (Some Malformed)) = None /\
  record_of_reply (Responded None) <> None /\
  record_of_reply (Responded (Some EmptyText)) <> None.
Proof.
  split; [apply (proj2 (resolution_fails_iff _)); auto|].
  split; intros H; apply (proj1 (resolution_fails_iff _)) in H;
    destruct H as [H | [H | [H | H]]]; discriminate H.
Defined.

(** Whatever the provider replies and whatever state the history and the
    storage are in, the resumed handler ends normally, with [loading]
    false; it shows either the error it found or the fetch-failure
    message, and leaves the link field and the download task alone. *)
Theorem resume_always_settles (render : State) (reply : provider_reply)
        (a : ambient) (s : State) :
  let s' := exec (fetchQualities_resume render reply a) s in
  fetchQualities_resume render reply a s = (Normal tt, s') /\
  loading s' = false /\
  (error s' = error s \/ error s' = Some msg_fetch_failed) /\
  url s' = url s /\ downloading s' = downloading s /\
  progress s' = progress s /\ intervals s' = intervals s /\
  timeouts s' = timeouts s /\ alerts s' = alerts s.
Proof.
  destruct s as [u l m sf d pr h e ls iv tm al]. run_handlers.
  destruct (response_data reply) as [data|]; [|repeat split; auto].
  destruct (videoInfo data) as [info|]; [|repeat split; auto].
  destruct (default_selection info) as [sel|]; [|repeat split; auto].
  destruct (array_filter _ _) as [kept|]; [|repeat split; auto].
  destruct (writable a); repeat split; auto.
Qed.

(** The state a resolution that goes through leaves behind. *)
Lemma fetch_goes_through (s : State) (reply : provider_reply) (a : ambient)
        (items : list HistoryItem.t) (info : VideoMetadata.t) :
  string_truthy (trim (url s)) = true ->
  history s = history_value items ->
  writable a = true ->
  record_of_reply reply = Some info ->
  let s' := exec (fetchQualities reply a) s in
  fetchQualities reply a s = (Normal tt, s') /\
  metadata s' = Some info /\ error s' = None /\ loading s' = false /\
  default_selection info = Some (selectedFormat s') /\
  history s' =
    history_value
      (firstn 20
         ({| HistoryItem.id := random_id a;
             HistoryItem.url := url s;
             HistoryItem.title := VideoMetadata.title info;
             HistoryItem.timestamp := now a |}
          :: filter (other (url s)) items)) /\
  localStorage s' = Some (JSON_stringify (history s')).
Proof.
  intros Hlink Hhist Hw Hrec. unfold record_of_reply in Hrec.
  destruct (response_data reply) as [data|] eqn:Hdata; [|discriminate].
  destruct (default_selection_defined data info Hrec) as [sel Hsel].
  destruct s as [u l m sf d pr h e ls iv tm al]. cbn [url history] in *.
  subst h. run_handlers.
  rewrite Hlink, Hdata, Hrec, Hsel. cbv beta iota zeta.
  rewrite !array_filter_value, !Hw. cbv beta iota zeta.
  unfold history_value. rewrite <- firstn_map.
  repeat split; reflexivity.
Qed.

(** A resolution that goes through, from a non-blank link, over a history
    of well-formed entries and a storage that accepts the write: the
    handler ends normally with the record installed, no error, [loading]
    false, the selection the record starts with, a new first history entry
    that carries the link and the record's title, the other entries in
    their order with any older entry for the same link removed, the
    whole cut to 20, and the same list persisted. *)
Theorem resolution_success (s : State) (reply : provider_reply) (a : ambient)
        (items : list HistoryItem.t) (info : VideoMetadata.t) :
  string_truthy (trim (url s)) = true ->
  history s = history_value items ->
  writable a = true ->
  record_of_reply reply = Some info ->
  let s' := exec (fetchQualities reply a) s in
  fetchQualities reply a s = (Normal tt, s') /\
  metadata s' = Some info /\ error s' = None /\ loading s' = false /\
  default_selection info = Some (selectedFormat s') /\
  history s' =
    history_value
      (firstn 20
         ({| HistoryItem.id := random_id a;
             HistoryItem.url := url s;
             HistoryItem.title := VideoMetadata.title info;
             HistoryItem.timestamp := now a |}
          :: filter (other (url s)) items)) /\
  localStorage s' = Some (JSON_stringify (history s')).
Proof.
  exact (fetch_goes_through s reply a items info).
Qed.

Lemma resolution_success_witness :
  string_truthy (trim (url typed_page)) = true /\
  error resolved_page = None /\
  localStorage resolved_page = Some (JSON_stringify (history resolved_page)).
Proof.
  assert (Hlink : string_truthy (trim (url typed_page)) = true) by reflexivity.
  split; [exact Hlink|].
  destruct (videoInfo (JObj [("title", JStr "Demo")])) as [info|] eqn:Hinfo;
    [|discriminate Hinfo].
  destruct (resolution_success typed_page reply_title_only sample_ambient []
              info Hlink eq_refl eq_refl Hinfo)
    as (_ & _ & He & _ & _ & _ & Hs).
  split; [exact He|exact Hs].
Defined.

(** When the storage refuses the write, a resolution that built its record
    still installs it and still updates the history in memory, but it ends
    with the fetch-failure message on display and the persisted list as it
    was before. *)
Theorem storage_refusal (s : State) (reply : provider_reply) (a : ambient)
        (items : list HistoryItem.t) (info : VideoMetadata.t) :
  string_truthy (trim (url s)) = true ->
  history s = history_value items ->
  writable a = false ->
  record_of_reply reply = Some info ->
  let s' := exec (fetchQualities reply a) s in
  metadata s' = Some info /\
  default_selection info = Some (selectedFormat s') /\
  history s' =
    history_value
      (firstn 20
         ({| HistoryItem.id := random_id a;
             HistoryItem.url := url s;
             HistoryItem.title := VideoMetadata.title info;
             HistoryItem.timestamp := now a |}
          :: filter (other (url s)) items)) /\
  localStorage s' = localStorage s /\
  error s' = Some msg_fetch_failed /\ loading s' = false.
Proof.
  intros Hlink Hhist Hw Hrec. unfold record_of_reply in Hrec.
  destruct (response_data reply) as [data|] eqn:Hdata; [|discriminate].
  destruct (default_selection_defined data info Hrec) as [sel Hsel].
  destruct s as [u l m sf d pr h e ls iv tm al]. cbn [url history] in *.
  subst h. run_handlers.
  rewrite Hlink, Hdata, Hrec, Hsel. cbv beta iota zeta.
  rewrite !array_filter_value, !Hw. cbv beta iota zeta.
  unfold history_value. rewrite <- firstn_map.
  repeat split; reflexivity.
Qed.

Lemma storage_refusal_witness :
  let a := {| random_id := "k3j9x0qp1"; now := 1700000000000%Z;
              writable := false |} in
  let s' := exec (fetchQualities reply_title_only a) typed_page in
  writable a = false /\
  error s' = Some msg_fetch_failed /\ localStorage s' = None /\
  history s' <> history typed_page.
Proof.
  cbv zeta.
  destruct (videoInfo (JObj [("title", JStr "Demo")])) as [info|] eqn:Hinfo;
    [|discriminate Hinfo].
  destruct (storage_refusal typed_page reply_title_only
              {| random_id := "k3j9x0qp1"; now := 1700000000000%Z;
                 writable := false |} [] info eq_refl eq_refl eq_refl Hinfo)
    as (_ & _ & Hh & Hl & He & _).
  split; [reflexivity|]. split; [exact He|]. split; [exact Hl|].
  rewrite Hh. discriminate.
Defined.

(** When the history the render saw cannot be filtered (it is not an
    array, or it holds [null]), a resolution that built its record still
    installs it and its selection, then fails while recording: the history
    and the persisted list stay as they were and the fetch-failure message
    is shown. *)
Theorem unfilterable_history (s : State) (reply : provider_reply) (a : ambient)
        (info : VideoMetadata.t) :
  string_truthy (trim (url s)) = true ->
  array_filter (other_url (url s)) (history s) = None ->
  record_of_reply reply = Some info ->
  let s' := exec (fetchQualities reply a) s in
  metadata s' = Some info /\
  default_selection info = Some (selectedFormat s') /\
  history s' = history s /\ localStorage s' = localStorage s /\
  error s' = Some msg_fetch_failed /\ loading s' = false.
Proof.
  intros Hlink Hbad Hrec. unfold record_of_reply in Hrec.
  destruct (response_data reply) as [data|] eqn:Hdata; [|discriminate].
  destruct (default_selection_defined data info Hrec) as [sel Hsel].
  destruct s as [u l m sf d pr h e ls iv tm al]. cbn [url history] in *.
  run_handlers.
  rewrite Hlink, Hdata, Hrec, Hsel. cbv beta iota zeta.
  rewrite !Hbad. repeat split; reflexivity.
Qed.

Lemma unfilterable_history_witness :
  let s := exec (setHistory (JArr [JNull])) typed_page in
  array_filter (other_url (url s)) (history s) = None /\
  history (exec (fetchQualities reply_title_only sample_ambient) s)
  = JArr [JNull] /\
  error (exec (fetchQualities reply_title_only sample_ambient) s)
  = Some msg_fetch_failed.
Proof.
  cbv zeta.
  assert (Hbad : array_filter
                   (other_url (url (exec (setHistory (JArr [JNull])) typed_page)))
                   (history (exec (setHistory (JArr [JNull])) typed_page)) = None)
    by reflexivity.
  split; [exact Hbad|].
  destruct (videoInfo (JObj [("title", JStr "Demo")])) as [info|] eqn:Hinfo;
    [|discriminate Hinfo].
  destruct (unfilterable_history (exec (setHistory (JArr [JNull])) typed_page)
              reply_title_only sample_ambient info eq_refl Hbad Hinfo)
    as (_ & _ & Hh & _ & He & _).
  split; [exact Hh|exact He].
Defined.

(** ** The History Store, further *)


Lemma In_firstn_In {A} (x : A) (n : nat) (l : list A) :
  In x (firstn n l) -> In x l.
Proof.
  revert n. induction l as [|y rest IH]; intros [|n]; cbn; try tauto.
  intros [H|H]; [left; exact H|right; exact (IH n H)].
Qed.

Lemma filter_keeps_all {A} (p : A -> bool) (l : list A) :
  (forall x, In x l -> p x = true) -> filter p l = l.
Proof.
  induction l as [|y rest IH]; cbn; intros H; [reflexivity|].
  rewrite (H y (or_introl eq_refl)). f_equal. apply IH.
  intros x Hx. apply H. right. exact Hx.
Qed.

(** The last write wins: recording a link twice in a row leaves the store
    as the second call alone would have left it, so the entry is not
    duplicated and carries the later title, id and time. *)
Theorem record_twice_is_record_last (s : State) (items : list HistoryItem.t)
        (c1 c2 : record_call) :
  history s = history_value items ->
  call_url c1 = call_url c2 ->
  history (records s [c1; c2]) = history (record s c2).
Proof.
  intros Hs Hurl. unfold records. cbn [fold_left].
  rewrite (record_value (record s c1) c2 _ (record_value s c1 items Hs)).
  rewrite (record_value s c2 items Hs).
  f_equal. rewrite !firstn_cons. f_equal.
  cbn [filter]. unfold other at 1. cbn [entry_of HistoryItem.url].
  rewrite Hurl, String.eqb_refl. cbn [negb].
  rewrite (filter_keeps_all (other (call_url c2))).
  - rewrite firstn_firstn. reflexivity.
  - intros x Hx. apply In_firstn_In in Hx.
    apply filter_In in Hx. tauto.
Qed.

Lemma record_twice_is_record_last_witness :
  let again := {| call_url := "https://a.example/1"; call_title := JStr "A again";
                  call_ambient := sample_ambient |} in
  let first := {| call_url := "https://a.example/1"; call_title := JStr "A";
                  call_ambient := sample_ambient |} in
  history (records (initial None) [first; again])
  = history (record (initial None) again).
Proof.
  cbv zeta.
  exact (record_twice_is_record_last (initial None) []
           {| call_url := "https://a.example/1"; call_title := JStr "A";
              call_ambient := sample_ambient |}
           {| call_url := "https://a.example/1"; call_title := JStr "A again";
              call_ambient := sample_ambient |} eq_refl eq_refl).
Defined.

(** Recording a link the store does not hold yet puts the new entry first
    and keeps the first 19 of the old entries in their order: a store of
    fewer than 20 entries grows by one, and a full store of 20 loses
    exactly its last, oldest entry. *)
Theorem record_new_link (s : State) (items : list HistoryItem.t)
        (c : record_call) :
  history s = history_value items ->
  ~ In (call_url c) (urls items) ->
  history (record s c) = history_value (entry_of c :: firstn 19 items) /\
  (List.length items < 20 ->
   history (record s c) = history_value (entry_of c :: items)) /\
  (List.length items = 20 ->
   history (record s c) = history_value (entry_of c :: removelast items)).
Proof.
  intros Hs Hnew.
  assert (Hrec : history (record s c)
                 = history_value (entry_of c :: firstn 19 items)).
  { rewrite (record_value s c items Hs), (filter_absent _ _ Hnew).
    rewrite firstn_cons. reflexivity. }
  split; [exact Hrec|]. split; intros Hlen; rewrite Hrec.
  - rewrite (firstn_all2 items) by lia. reflexivity.
  - rewrite removelast_firstn_len, Hlen. reflexivity.
Qed.

Lemma record_new_link_witness :
  let c := {| call_url := "https://c.example/3"; call_title := JStr "C";
              call_ambient := sample_ambient |} in
  let s := records (initial None) sample_calls in
  history (record s c)
  = history_value
      (entry_of c
       :: [ {| HistoryItem.id := "k3j9x0qp1"; HistoryItem.url := "https://a.example/1";
               HistoryItem.title := JStr "A again";
               HistoryItem.timestamp := 1700000000000 |};
            {| HistoryItem.id := "k3j9x0qp1"; HistoryItem.url := "https://b.example/2";
               HistoryItem.title := JStr "B";
               HistoryItem.timestamp := 1700000000000 |} ]).
Proof.
  cbv zeta.
  refine (proj1 (proj2 (record_new_link (records (initial None) sample_calls)
     [ {| HistoryItem.id := "k3j9x0qp1"; HistoryItem.url := "https://a.example/1";
          HistoryItem.title := JStr "A again";
          HistoryItem.timestamp := 1700000000000 |};
       {| HistoryItem.id := "k3j9x0qp1"; HistoryItem.url := "https://b.example/2";
          HistoryItem.title := JStr "B";
          HistoryItem.timestamp := 1700000000000 |} ]
     {| call_url := "https://c.example/3"; call_title := JStr "C";
        call_ambient := sample_ambient |} eq_refl _)) _).
  - cbn. intros H. repeat (destruct H as [H|H]; [discriminate H|]). exact H.
  - cbn. lia.
Defined.

(** Clearing the history while a resolution is pending does not last: when
    the resolution settles it rebuilds the history, in memory and in the
    storage, from the list its own render saw, so the cleared entries are
    back behind the new one. *)
Theorem clear_while_pending_is_undone (s : State) (reply : provider_reply)
        (a : ambient) (items : list HistoryItem.t) (info : VideoMetadata.t) :
  string_truthy (trim (url s)) = true ->
  history s = history_value items ->
  writable a = true ->
  record_of_reply reply = Some info ->
  let pending := exec (fetchQualities_begin s) s in
  let cleared := exec clearHistory pending in
  let s' := exec (fetchQualities_resume s reply a) cleared in
  history cleared = JArr [] /\ localStorage cleared = None /\
  history s' = history (exec (fetchQualities reply a) s) /\
  localStorage s' = localStorage (exec (fetchQualities reply a) s) /\
  history s' =
    history_value
      (firstn 20
         ({| HistoryItem.id := random_id a;
             HistoryItem.url := url s;
             HistoryItem.title := VideoMetadata.title info;
             HistoryItem.timestamp := now a |}
          :: filter (other (url s)) items)).
Proof.
  intros Hlink Hhist Hw Hrec.
  destruct (fetch_goes_through s reply a items info Hlink Hhist Hw Hrec)
    as (_ & _ & _ & _ & _ & Hh & Hl).
  cbv zeta in Hh, Hl. cbv zeta. rewrite Hl, Hh. clear Hh Hl.
  unfold record_of_reply in Hrec.
  destruct (response_data reply) as [data|] eqn:Hdata; [|discriminate].
  destruct (default_selection_defined data info Hrec) as [sel Hsel].
  destruct s as [u l m sf d pr h e ls iv tm al]. cbn [url history] in *.
  subst h. unfold clearHistory, localStorage_removeItem. run_handlers.
  rewrite Hlink, Hdata, Hrec, Hsel. cbv beta iota zeta.
  rewrite !array_filter_value, !Hw. cbv beta iota zeta.
  unfold history_value. rewrite <- firstn_map.
  repeat split; reflexivity.
Qed.

Lemma clear_while_pending_is_undone_witness :
  let s := exec (setUrl "https://c.example/3") (records (initial None) sample_calls) in
  let cleared := exec clearHistory (exec (fetchQualities_begin s) s) in
  string_truthy (trim (url s)) = true /\
  history cleared = JArr [] /\
  history (exec (fetchQualities_resume s reply_title_only sample_ambient) cleared)
  = history (exec (fetchQualities reply_title_only sample_ambient) s).
Proof.
  cbv zeta. split; [reflexivity|].
  destruct (videoInfo (JObj [("title", JStr "Demo")])) as [info|] eqn:Hinfo;
    [|discriminate Hinfo].
  destruct (clear_while_pending_is_undone
              (exec (setUrl "https://c.example/3")
                    (records (initial None) sample_calls))
              reply_title_only sample_ambient
              [ {| HistoryItem.id := "k3j9x0qp1";
                   HistoryItem.url := "https://a.example/1";
                   HistoryItem.title := JStr "A again";
                   HistoryItem.timestamp := 1700000000000 |};
                {| HistoryItem.id := "k3j9x0qp1";
                   HistoryItem.url := "https://b.example/2";
                   HistoryItem.title := JStr "B";
                   HistoryItem.timestamp := 1700000000000 |} ]
              info eq_refl eq_refl eq_refl Hinfo)
    as (Hc & _ & Hh & _).
  split; [exact Hc|exact Hh].
Defined.

(** ** The download, further *)

Section Pace.

Local Open Scope Q_scope.





End Pace.

(** Unfold every handler and callback down to the record it builds. *)
Ltac run_page :=
  cbv beta iota zeta delta
      [fetchQualities fetchQualities_begin fetchQualities_resume
       try_catch_finally try_catch saveToHistory clearHistory handlePaste
       startDownload interval_fires timeout_fires
       localStorage_setItem localStorage_removeItem exec
       bind lift ret throw update read
       setUrl setMetadata setSelectedFormat setHistory setError setLoading
       setDownloading setProgress set_slot set_intervals set_timeouts
       set_alerts setInterval clearInterval setTimeout alert
       fst snd negb url loading metadata selectedFormat downloading progress
       history error localStorage intervals timeouts alerts].

(** Unfold, and split on every choice the handlers make. *)
Ltac split_page :=
  repeat (run_page;
          match goal with
          | |- context [response_data ?x] => destruct (response_data x)
          | |- context [videoInfo ?x] => destruct (videoInfo x)
          | |- context [default_selection ?x] => destruct (default_selection x)
          | |- context [array_filter ?p ?x] => destruct (array_filter p x)
          | |- context [writable ?x] => destruct (writable x)
          | |- context [nth_error ?l ?k] => destruct (nth_error l k)
          | |- context [Qle_bool ?x ?y] => destruct (Qle_bool x y)
          end);
  run_page.

(** The download and the resolution do not interfere: a timer tick or a
    completion callback leaves the link, the record, the selection, the
    history, the error and the storage as they are, and it does not
    matter whether it fires before or after a pending resolution
    settles. *)
Theorem download_and_resolution_commute (render s : State)
        (reply : provider_reply) (a : ambient) (k : nat) (r : Q) :
  (exec (interval_fires k r) (exec (fetchQualities_resume render reply a) s)
   = exec (fetchQualities_resume render reply a) (exec (interval_fires k r) s)) /\
  (exec (timeout_fires k) (exec (fetchQualities_resume render reply a) s)
   = exec (fetchQualities_resume render reply a) (exec (timeout_fires k) s)) /\
  (forall fired,
      fired = exec (interval_fires k r) s \/ fired = exec (timeout_fires k) s ->
      url fired = url s /\ loading fired = loading s /\
      metadata fired = metadata s /\ selectedFormat fired = selectedFormat s /\
      history fired = history s /\ error fired = error s /\
      localStorage fired = localStorage s).
Proof.
  destruct s as [u l m sf d pr h e ls iv tm al].
  split; [|split].
  - split_page; reflexivity.
  - split_page; reflexivity.
  - intros fired [-> | ->]; split_page; repeat split; reflexivity.
Qed.

Lemma download_and_resolution_commute_witness :
  metadata (exec (interval_fires 0 (1 # 2)) started_page) = metadata started_page /\
  history (exec (timeout_fires 0) started_page) = history started_page.
Proof.
  pose proof (proj2 (proj2 (download_and_resolution_commute started_page
                              started_page Rejected sample_ambient 0 (1 # 2))))
    as Hframe.
  destruct (Hframe _ (or_introl eq_refl)) as (_ & _ & Hm & _).
  destruct (Hframe _ (or_intror eq_refl)) as (_ & _ & _ & _ & Hh & _).
  split; [exact Hm|exact Hh].
Defined.






(** ** The blank-link guard *)

Lemma trim_end_empty (t : string) :
  trim_end t = "" <-> all_space t = true.
Proof.
  induction t as [|c rest IH]; cbn [trim_end all_space]; [tauto|].
  destruct (trim_end rest) as [|c' t'] eqn:Hrest.
  - destruct (is_js_space c); cbn [andb].
    + split; intros _; [apply IH|]; reflexivity.
    + split; discriminate.
  - split; [discriminate|].
    intros H. apply andb_true_iff in H as [_ H].
    apply IH in H. discriminate H.
Qed.

Lemma all_space_trim_start (u : string) :
  all_space (trim_start u) = all_space u.
Proof.
  induction u as [|c rest IH]; [reflexivity|].
  cbn [trim_start]. destruct (is_js_space c) eqn:Hc.
  - cbn [all_space]. rewrite Hc. exact IH.
  - reflexivity.
Qed.

Lemma blank_test (u : string) :
  string_truthy (trim u) = negb (all_space u).
Proof.
  unfold trim. rewrite <- (all_space_trim_start u).
  destruct (trim_end (trim_start u)) as [|c t] eqn:Ht.
  - apply trim_end_empty in Ht. rewrite Ht. reflexivity.
  - destruct (all_space (trim_start u)) eqn:Hs; [|reflexivity].
    apply trim_end_empty in Hs. rewrite Hs in Ht. discriminate Ht.
Qed.

(** The handler refuses a link exactly when every character of it is white
    space (the empty link included): it then shows the paste-a-link
    message, issues no request and changes nothing else.  For any other
    link it issues the request, after turning [loading] on and clearing
    the error and the record on display. *)
Theorem blank_link_guard (s : State) :
  (all_space (url s) = true ->
   fetchQualities_begin s s
   = (Normal false, exec (setError (Some msg_no_link)) s)) /\
  (all_space (url s) = false ->
   fetchQualities_begin s s
   = (Normal true,
      exec (setLoading true ;; setError None ;; setMetadata None) s)).
Proof.
  unfold fetchQualities_begin. rewrite blank_test, negb_involutive.
  split; intros ->; reflexivity.
Qed.

Lemma blank_link_guard_witness :
  all_space (url blank_link_page) = true /\
  fst (fetchQualities_begin blank_link_page blank_link_page) = Normal false /\
  all_space (url typed_page) = false /\
  fst (fetchQualities_begin typed_page typed_page) = Normal true.
Proof.
  assert (Hb : all_space (url blank_link_page) = true) by reflexivity.
  assert (Ht : all_space (url typed_page) = false) by reflexivity.
  split; [exact Hb|]. split.
  - rewrite (proj1 (blank_link_guard blank_link_page) Hb). reflexivity.
  - split; [exact Ht|].
    rewrite (proj2 (blank_link_guard typed_page) Ht). reflexivity.
Defined.

(** ** Pasting *)

(** A paste that fails shows the clipboard message and leaves the link as
    it is.  A paste that succeeds replaces the link and nothing else, and
    the next resolution is that of the pasted text: if the text is not
    blank and the resolution goes through, the new first history entry
    carries the pasted text as its link. *)
Theorem pasted_link_is_resolved (s : State) (text : string)
        (reply : provider_reply) (a : ambient)
        (items : list HistoryItem.t) (info : VideoMetadata.t) :
  handlePaste None s = (Normal tt, exec (setError (Some msg_clipboard)) s) /\
  handlePaste (Some text) s = (Normal tt, exec (setUrl text) s) /\
  (all_space text = false ->
   history s = history_value items ->
   writable a = true ->
   record_of_reply reply = Some info ->
   let s' := exec (fetchQualities reply a) (exec (handlePaste (Some text)) s) in
   url s' = text /\ error s' = None /\ metadata s' = Some info /\
   history s' =
     history_value
       (firstn 20
          ({| HistoryItem.id := random_id a;
              HistoryItem.url := text;
              HistoryItem.title := VideoMetadata.title info;
              HistoryItem.timestamp := now a |}
           :: filter (other text) items))).
Proof.
  split; [reflexivity|]. split; [reflexivity|].
  intros Hsp Hh Hw Hrec.
  change (exec (handlePaste (Some text)) s) with (exec (setUrl text) s).
  assert (Hlink : string_truthy (trim (url (exec (setUrl text) s))) = true).
  { change (url (exec (setUrl text) s)) with text.
    rewrite blank_test, Hsp. reflexivity. }
  destruct (fetch_goes_through (exec (setUrl text) s) reply a items info
              Hlink Hh Hw Hrec) as (Hrun & Hm & He & _ & _ & Hhist & _).
  cbv zeta in *. split; [|split; [exact He|split; [exact Hm|exact Hhist]]].
  destruct s as [u l m sf d pr h e ls iv tm al].
  cbn [exec setUrl update snd url] in Hlink.
  run_page. rewrite Hlink. split_page; reflexivity.
Qed.

Lemma pasted_link_is_resolved_witness :
  let s' := exec (fetchQualities reply_title_only sample_ambient)
                 (exec (handlePaste (Some "https://c.example/3")) resolved_page) in
  all_space "https://c.example/3" = false /\
  url s' = "https://c.example/3" /\ error s' = None.
Proof.
  cbv zeta. split; [reflexivity|].
  destruct (videoInfo (JObj [("title", JStr "Demo")])) as [info|] eqn:Hinfo;
    [|discriminate Hinfo].
  destruct (proj2 (proj2 (pasted_link_is_resolved resolved_page
                            "https://c.example/3" reply_title_only
                            sample_ambient
                            [ {| HistoryItem.id := "k3j9x0qp1";
                                 HistoryItem.url := sample_url;
                                 HistoryItem.title := JStr "Demo";
                                 HistoryItem.timestamp := 1700000000000 |} ]
                            info))
              eq_refl eq_refl eq_refl Hinfo) as (Hu & He & _).
  split; [exact Hu|exact He].
Defined.

(** ** What holds in every state the page can reach *)

Ltac frame_auto s :=
  destruct s as [u l m sf d pr h e ls iv tm al];
  split_page; repeat split; reflexivity.

Lemma download_consistent_frame (s s' : State) :
  downloading s' = downloading s -> progress s' = progress s ->
  intervals s' = intervals s -> timeouts s' = timeouts s ->
  download_consistent s -> download_consistent s'.
Proof.
  unfold download_consistent. intros -> -> -> ->. tauto.
Qed.

Lemma selection_belongs_frame (s s' : State) :
  metadata s' = metadata s -> selectedFormat s' = selectedFormat s ->
  selection_belongs s -> selection_belongs s'.
Proof.
  unfold selection_belongs. intros -> ->. tauto.
Qed.

Lemma history_well_formed_frame (s s' : State) :
  history s' = history s -> history_well_formed s -> history_well_formed s'.
Proof.
  unfold history_well_formed. intros ->. tauto.
Qed.

Lemma typing_frame (text : string) (s : State) :
  let s' := exec (setUrl text) s in
  metadata s' = metadata s /\ selectedFormat s' = selectedFormat s /\
  history s' = history s /\ downloading s' = downloading s /\
  progress s' = progress s /\ intervals s' = intervals s /\
  timeouts s' = timeouts s.
Proof. frame_auto s. Qed.

Lemma paste_frame (clipboard : option string) (s : State) :
  let s' := exec (handlePaste clipboard) s in
  metadata s' = metadata s /\ selectedFormat s' = selectedFormat s /\
  history s' = history s /\ downloading s' = downloading s /\
  progress s' = progress s /\ intervals s' = intervals s /\
  timeouts s' = timeouts s.
Proof. destruct clipboard; frame_auto s. Qed.

Lemma select_frame (q : js_value) (s : State) :
  let s' := exec (setSelectedFormat q) s in
  metadata s' = metadata s /\ selectedFormat s' = q /\
  history s' = history s /\ downloading s' = downloading s /\
  progress s' = progress s /\ intervals s' = intervals s /\
  timeouts s' = timeouts s.
Proof. frame_auto s. Qed.

Lemma begin_frame (s : State) :
  let s' := exec (fetchQualities_begin s) s in
  (metadata s' = metadata s \/ metadata s' = None) /\
  selectedFormat s' = selectedFormat s /\
  history s' = history s /\ downloading s' = downloading s /\
  progress s' = progress s /\ intervals s' = intervals s /\
  timeouts s' = timeouts s.
Proof.
  destruct s as [u l m sf d pr h e ls iv tm al]. run_page.
  destruct (string_truthy (trim u)); run_page; repeat split; auto.
Qed.

Lemma clear_frame (s : State) :
  let s' := exec clearHistory s in
  metadata s' = metadata s /\ selectedFormat s' = selectedFormat s /\
  history s' = JArr [] /\ downloading s' = downloading s /\
  progress s' = progress s /\ intervals s' = intervals s /\
  timeouts s' = timeouts s.
Proof. frame_auto s. Qed.

Lemma timer_frame (k : nat) (r : Q) (s : State) :
  (let s' := exec (interval_fires k r) s in
   metadata s' = metadata s /\ selectedFormat s' = selectedFormat s /\
   history s' = history s) /\
  (let s' := exec (timeout_fires k) s in
   metadata s' = metadata s /\ selectedFormat s' = selectedFormat s /\
   history s' = history s).
Proof. frame_auto s. Qed.

Lemma start_frame (s : State) :
  let s' := exec (startDownload s) s in
  metadata s' = metadata s /\ selectedFormat s' = selectedFormat s /\
  history s' = history s.
Proof.
  destruct s as [u l m sf d pr h e ls iv tm al]. run_page.
  destruct (truthy sf); run_page; repeat split; reflexivity.
Qed.

Lemma settle_frame (render s : State) (reply : provider_reply) (a : ambient) :
  let s' := exec (fetchQualities_resume render reply a) s in
  downloading s' = downloading s /\ progress s' = progress s /\
  intervals s' = intervals s /\ timeouts s' = timeouts s.
Proof. frame_auto s. Qed.

Lemma mount_state (slot : option json_text) :
  let s := exec loadHistory (initial slot) in
  metadata s = None /\ downloading s = false /\ progress s = 0%Q /\
  intervals s = [] /\ timeouts s = [].
Proof.
  destruct slot as [[| |v]|]; repeat split; reflexivity.
Qed.

Lemma enabled_not_downloading (s : State) :
  download_button_enabled s = true -> downloading s = false.
Proof.
  unfold download_button_enabled.
  destruct (history s), (metadata s), (results_section s);
    try discriminate; intros H; apply andb_true_iff in H as [_ H];
    apply negb_true_iff in H; exact H.
Qed.

Section DownloadSteps.

Local Open Scope Q_scope.

Lemma start_consistent (s : State) :
  download_button_enabled s = true ->
  download_consistent s -> download_consistent (exec (startDownload s) s).
Proof.
  intros Hon Hc. pose proof (enabled_not_downloading s Hon) as Hd.
  destruct Hc as [(Hd' & _) | (_ & Hi & Ht & Hp)]; [congruence|].
  destruct s as [u l m sf d pr h e ls iv tm al]. cbn in Hi, Ht, Hp, Hd.
  subst. unfold download_consistent. run_page. destruct (truthy sf); run_page.
  - left. cbn [List.length Nat.add app]. repeat split; try reflexivity; lra.
  - right. repeat split; reflexivity.
Qed.

Lemma tick_consistent (k : nat) (r : Q) (s : State) :
  random_draw r ->
  download_consistent s -> download_consistent (exec (interval_fires k r) s).
Proof.
  intros [Hr0 Hr1] Hc.
  destruct s as [u l m sf d pr h e ls iv tm al].
  unfold download_consistent in *.
  cbn [downloading intervals timeouts progress] in Hc.
  destruct Hc as [(Hd & Hone & Hp0 & Hp1) | (Hd & Hi & Ht & Hp)]; subst.
  - run_page. destruct (nth_error iv k) as [n|] eqn:Hk; run_page.
    + destruct (Qle_bool 100 pr) eqn:Hcmp; run_page; left.
      * destruct iv as [|n0 [|n1 iv]]; [destruct k; discriminate Hk| |cbn in Hone; lia].
        destruct tm; [|cbn in Hone; lia].
        destruct k as [|k]; [|destruct k; discriminate Hk].
        cbn. repeat split; try reflexivity; lra.
      * assert (Hlt : pr < 100).
        { destruct (Qlt_le_dec pr 100) as [Hlt|Hge]; [exact Hlt|].
          apply Qle_bool_iff in Hge. congruence. }
        repeat split; try assumption; lra.
    + left. repeat split; assumption.
  - run_page. destruct k; run_page; right; repeat split; reflexivity.
Qed.

Lemma callback_consistent (k : nat) (s : State) :
  download_consistent s -> download_consistent (exec (timeout_fires k) s).
Proof.
  intros Hc. destruct s as [u l m sf d pr h e ls iv tm al].
  unfold download_consistent in *.
  cbn [downloading intervals timeouts progress] in Hc.
  destruct Hc as [(Hd & Hone & Hp0 & Hp1) | (Hd & Hi & Ht & Hp)]; subst.
  - run_page. destruct (nth_error tm k) as [n|] eqn:Hk; run_page.
    + right.
      destruct tm as [|n0 [|n1 tm]];
        [destruct k; discriminate Hk| |cbn in Hone; lia].
      destruct iv; [|cbn in Hone; lia].
      destruct k as [|k]; [|destruct k; discriminate Hk].
      repeat split; reflexivity.
    + left. repeat split; assumption.
  - run_page. destruct k; run_page; right; repeat split; reflexivity.
Qed.

End DownloadSteps.

Lemma settle_without_record (render s : State) (reply : provider_reply)
      (a : ambient) :
  record_of_reply reply = None ->
  let s' := exec (fetchQualities_resume render reply a) s in
  metadata s' = metadata s /\ selectedFormat s' = selectedFormat s /\
  history s' = history s.
Proof.
  unfold record_of_reply. intros Hrec.
  destruct s as [u l m sf d pr h e ls iv tm al]. run_page.
  destruct (response_data reply) as [data|]; run_page;
    [rewrite Hrec|]; repeat split; reflexivity.
Qed.

Lemma settle_selection (render s : State) (reply : provider_reply)
      (a : ambient) :
  selection_belongs s ->
  selection_belongs (exec (fetchQualities_resume render reply a) s).
Proof.
  intros Hsel.
  destruct (record_of_reply reply) as [info|] eqn:Hrec.
  - unfold record_of_reply in Hrec.
    destruct (response_data reply) as [data|] eqn:Hdata; [|discriminate].
    destruct (default_selection_defined data info Hrec) as [sel Hdef].
    destruct (resume_installs render reply a s data info sel Hdata Hrec Hdef)
      as (Hm & Hs & _).
    intros m' Hm'. rewrite Hm in Hm'. injection Hm' as <-.
    left. rewrite Hs. exact Hdef.
  - destruct (settle_without_record render s reply a Hrec) as (Hm & Hs & _).
    exact (selection_belongs_frame _ _ Hm Hs Hsel).
Qed.

Lemma store_invariant_record (e : HistoryItem.t) (items : list HistoryItem.t) :
  store_invariant items ->
  store_invariant (firstn 20 (e :: filter (other (HistoryItem.url e)) items)).
Proof.
  intros [Hnd _]. split; [|apply firstn_le_length].
  apply urls_firstn_NoDup. cbn [urls map]. constructor.
  - apply (urls_filter_out (HistoryItem.url e)).
  - apply urls_filter_NoDup, Hnd.
Qed.

Lemma settle_history (render s : State) (reply : provider_reply) (a : ambient) :
  history_well_formed render -> history_well_formed s ->
  history_well_formed (exec (fetchQualities_resume render reply a) s).
Proof.
  intros (items & Hr & Hinv) Hs.
  destruct (record_of_reply reply) as [info|] eqn:Hrec.
  - unfold record_of_reply in Hrec.
    destruct (response_data reply) as [data|] eqn:Hdata; [|discriminate].
    destruct (default_selection_defined data info Hrec) as [sel Hdef].
    exists (firstn 20
              ({| HistoryItem.id := random_id a;
                  HistoryItem.url := url render;
                  HistoryItem.title := VideoMetadata.title info;
                  HistoryItem.timestamp := now a |}
               :: filter (other (url render)) items)).
    split; [|exact (store_invariant_record _ items Hinv)].
    destruct render as [u' l' m' sf' d' pr' h' e' ls' iv' tm' al'].
    cbn [history url] in *. subst h'.
    destruct s as [u l m sf d pr h e ls iv tm al]. run_page.
    rewrite Hdata, Hrec, Hdef. cbv beta iota zeta.
    rewrite !array_filter_value. cbv beta iota zeta.
    unfold history_value. rewrite <- firstn_map.
    destruct (writable a); reflexivity.
  - destruct (settle_without_record render s reply a Hrec) as (_ & _ & Hh).
    exact (history_well_formed_frame _ _ Hh Hs).
Qed.

Lemma mount_history (slot : option json_text) :
  well_formed_slot slot ->
  history_well_formed (exec loadHistory (initial slot)).
Proof.
  intros [-> | [-> | (items & Hinv & ->)]].
  - exists []. split; [reflexivity|]. split; [constructor|cbn; lia].
  - exists []. split; [reflexivity|]. split; [constructor|cbn; lia].
  - exists items. split; [reflexivity|exact Hinv].
Qed.

(** On a page mounted over well-formed storage, whatever the user and the
    timers do, the download task and its timers agree: while [downloading]
    there is exactly one timer or one pending completion and [progress]
    lies in [[0, 115)]; otherwise there is no timer, nothing pending, and
    [progress] is 0.  So two downloads never run at once. *)
Theorem page_download_consistent (slot : option json_text) (s : State) :
  well_formed_slot slot -> reachable slot s -> download_consistent s.
Proof.
  intros _ Hreach.
  induction Hreach as [Hload | s text _ IH | s clipboard _ IH
                       | s s' c _ IH Hstep | render s reply a _ _ _ IH
                       | s k r _ IH Hr | s k _ IH | s _ IH].
  - destruct (mount_state slot) as (_ & Hd & Hp & Hi & Ht).
    right. repeat split; assumption.
  - destruct (typing_frame text s) as (_ & _ & _ & Hd & Hp & Hi & Ht).
    exact (download_consistent_frame _ _ Hd Hp Hi Ht IH).
  - destruct (paste_frame clipboard s) as (_ & _ & _ & Hd & Hp & Hi & Ht).
    exact (download_consistent_frame _ _ Hd Hp Hi Ht IH).
  - inversion Hstep as [s0 q Hin | s0 Hon | s0 Hon]; subst.
    + destruct (select_frame q s) as (_ & _ & _ & Hd & Hp & Hi & Ht).
      exact (download_consistent_frame _ _ Hd Hp Hi Ht IH).
    + exact (start_consistent s Hon IH).
    + destruct (begin_frame s) as (_ & _ & _ & Hd & Hp & Hi & Ht).
      exact (download_consistent_frame _ _ Hd Hp Hi Ht IH).
  - destruct (settle_frame render s reply a) as (Hd & Hp & Hi & Ht).
    exact (download_consistent_frame _ _ Hd Hp Hi Ht IH).
  - exact (tick_consistent k r s Hr IH).
  - exact (callback_consistent k s IH).
  - destruct (clear_frame s) as (_ & _ & _ & Hd & Hp & Hi & Ht).
    exact (download_consistent_frame _ _ Hd Hp Hi Ht IH).
Qed.

(** On a page mounted over well-formed storage, whatever happens, the
    selection belongs to the record on display: whenever a record is
    shown, [selectedFormat] is the selection that record started with or
    an entry of its [videoQualities] or [audioFormats]. *)
Theorem page_selection_belongs (slot : option json_text) (s : State) :
  well_formed_slot slot -> reachable slot s -> selection_belongs s.
Proof.
  intros _ Hreach.
  induction Hreach as [Hload | s text _ IH | s clipboard _ IH
                       | s s' c _ IH Hstep | render s reply a _ _ _ IH
                       | s k r _ IH Hr | s k _ IH | s _ IH].
  - intros m Hm. destruct (mount_state slot) as (Hnone & _).
    rewrite Hnone in Hm. discriminate Hm.
  - destruct (typing_frame text s) as (Hm & Hs & _).
    exact (selection_belongs_frame _ _ Hm Hs IH).
  - destruct (paste_frame clipboard s) as (Hm & Hs & _).
    exact (selection_belongs_frame _ _ Hm Hs IH).
  - inversion Hstep as [s0 q Hin | s0 Hon | s0 Hon]; subst.
    + destruct (select_frame q s) as (Hm & Hs & _).
      intros m' Hm'. rewrite Hm in Hm'. rewrite Hs. right.
      destruct (format_buttons_listed s q Hin)
        as (m0 & video & audio & Hm0 & Hv & Ha & Hq).
      rewrite Hm0 in Hm'. injection Hm' as <-.
      exists video, audio. repeat split; assumption.
    + destruct (start_frame s) as (Hm & Hs & _).
      exact (selection_belongs_frame _ _ Hm Hs IH).
    + destruct (begin_frame s) as ([Hm | Hm] & Hs & _).
      * exact (selection_belongs_frame _ _ Hm Hs IH).
      * intros m' Hm'. rewrite Hm in Hm'. discriminate Hm'.
  - exact (settle_selection render s reply a IH).
  - destruct (proj1 (timer_frame k r s)) as (Hm & Hs & _).
    exact (selection_belongs_frame _ _ Hm Hs IH).
  - destruct (proj2 (timer_frame k 0%Q s)) as (Hm & Hs & _).
    exact (selection_belongs_frame _ _ Hm Hs IH).
  - destruct (clear_frame s) as (Hm & Hs & _).
    exact (selection_belongs_frame _ _ Hm Hs IH).
Qed.

(** On a page mounted over well-formed storage, whatever happens (late
    resolutions that settle on an older render and clears in between
    included), the history is a list of well-formed entries with one entry
    per link and at most 20 entries. *)
Theorem page_history_well_formed (slot : option json_text) (s : State) :
  well_formed_slot slot -> reachable slot s -> history_well_formed s.
Proof.
  intros Hslot Hreach.
  induction Hreach as [Hload | s text _ IH | s clipboard _ IH
                       | s s' c _ IH Hstep | render s reply a _ IHr _ IH
                       | s k r _ IH Hr | s k _ IH | s _ IH].
  - exact (mount_history slot Hslot).
  - destruct (typing_frame text s) as (_ & _ & Hh & _).
    exact (history_well_formed_frame _ _ Hh IH).
  - destruct (paste_frame clipboard s) as (_ & _ & Hh & _).
    exact (history_well_formed_frame _ _ Hh IH).
  - inversion Hstep as [s0 q Hin | s0 Hon | s0 Hon]; subst.
    + destruct (select_frame q s) as (_ & _ & Hh & _).
      exact (history_well_formed_frame _ _ Hh IH).
    + destruct (start_frame s) as (_ & _ & Hh).
      exact (history_well_formed_frame _ _ Hh IH).
    + destruct (begin_frame s) as (_ & _ & Hh & _).
      exact (history_well_formed_frame _ _ Hh IH).
  - exact (settle_history render s reply a IHr IH).
  - destruct (proj1 (timer_frame k r s)) as (_ & _ & Hh).
    exact (history_well_formed_frame _ _ Hh IH).
  - destruct (proj2 (timer_frame k 0%Q s)) as (_ & _ & Hh).
    exact (history_well_formed_frame _ _ Hh IH).
  - destruct (clear_frame s) as (_ & _ & Hh & _).
    exists []. split; [exact Hh|]. split; [constructor|cbn; lia].
Qed.

(** The sample pages are states of a page mounted over empty storage. *)
Lemma resolved_page_reachable : reachable None resolved_page.
Proof.
  assert (Hmount : reachable None (initial None))
    by exact (reach_mount None eq_refl).
  assert (Htyped : reachable None typed_page)
    by exact (reach_type None _ sample_url Hmount).
  assert (Hpending : reachable None
                       (exec (fetchQualities_begin typed_page) typed_page))
    by exact (reach_click None _ _ ClickFetch Htyped
                (step_fetch typed_page eq_refl)).
  exact (reach_settle None typed_page _ reply_title_only sample_ambient
           Htyped Hpending).
Qed.

Lemma started_page_reachable : reachable None started_page.
Proof.
  exact (reach_click None _ _ ClickDownload resolved_page_reachable
           (step_download resolved_page eq_refl)).
Qed.

Lemma page_download_consistent_witness :
  well_formed_slot None /\
  reachable None (ticks (repeat (7 # 8)%Q 8) started_page) /\
  download_consistent (ticks (repeat (7 # 8)%Q 8) started_page).
Proof.
  assert (Hslot : well_formed_slot None) by (left; reflexivity).
  assert (Hdraw : random_draw (7 # 8)%Q) by (unfold random_draw; lra).
  assert (Hrun : reachable None (ticks (repeat (7 # 8)%Q 8) started_page)).
  { unfold ticks. cbn [repeat fold_left].
    repeat apply reach_tick; try exact Hdraw. exact started_page_reachable. }
  split; [exact Hslot|]. split; [exact Hrun|].
  exact (page_download_consistent None _ Hslot Hrun).
Defined.

Lemma page_selection_belongs_witness :
  well_formed_slot None /\
  reachable None (exec (setSelectedFormat (JStr "MP3 320kbps")) resolved_page) /\
  selection_belongs (exec (setSelectedFormat (JStr "MP3 320kbps")) resolved_page).
Proof.
  assert (Hslot : well_formed_slot None) by (left; reflexivity).
  assert (Hrun : reachable None
                   (exec (setSelectedFormat (JStr "MP3 320kbps")) resolved_page)).
  { apply (reach_click None resolved_page _ (ClickFormat (JStr "MP3 320kbps"))
             resolved_page_reachable).
    apply step_format. cbn. do 4 right. left. reflexivity. }
  split; [exact Hslot|]. split; [exact Hrun|].
  exact (page_selection_belongs None _ Hslot Hrun).
Defined.

Lemma page_history_well_formed_witness :
  well_formed_slot None /\
  reachable None (exec clearHistory resolved_page) /\
  history_well_formed (exec clearHistory resolved_page).
Proof.
  assert (Hslot : well_formed_slot None) by (left; reflexivity).
  assert (Hrun : reachable None (exec clearHistory resolved_page))
    by exact (reach_clear None _ resolved_page_reachable).
  split; [exact Hslot|]. split; [exact Hrun|].
  exact (page_history_well_formed None _ Hslot Hrun).
Defined.

Lemma storage_untouched (s : State) (text : string) (clipboard : option string)
      (q : js_value) (k : nat) (r : Q) :
  localStorage (exec (setUrl text) s) = localStorage s /\
  localStorage (exec (handlePaste clipboard) s) = localStorage s /\
  localStorage (exec (setSelectedFormat q) s) = localStorage s /\
  localStorage (exec (fetchQualities_begin s) s) = localStorage s /\
  localStorage (exec (startDownload s) s) = localStorage s /\
  localStorage (exec (interval_fires k r) s) = localStorage s /\
  localStorage (exec (timeout_fires k) s) = localStorage s.
Proof.
  destruct s as [u l m sf d pr h e ls iv tm al].
  repeat split; try (destruct clipboard); run_page;
    try destruct (string_truthy (trim u)); try destruct (truthy sf);
    split_page; reflexivity.
Qed.

Lemma settle_storage (render s : State) (reply : provider_reply) (a : ambient) :
  history_well_formed render ->
  well_formed_slot (localStorage s) ->
  well_formed_slot (localStorage (exec (fetchQualities_resume render reply a) s)).
Proof.
  intros (items & Hr & Hinv) Hs.
  destruct render as [u' l' m' sf' d' pr' h' e' ls' iv' tm' al'].
  cbn [history] in Hr. subst h'.
  destruct s as [u l m sf d pr h e ls iv tm al]. cbn [localStorage] in Hs.
  run_page.
  destruct (response_data reply) as [data|]; run_page; [|exact Hs].
  destruct (videoInfo data) as [info|]; run_page; [|exact Hs].
  destruct (default_selection info) as [sel|]; run_page; [|exact Hs].
  rewrite !array_filter_value. cbv beta iota zeta.
  destruct (writable a); run_page; [|exact Hs].
  right. right.
  exists (firstn 20
            ({| HistoryItem.id := random_id a;
                HistoryItem.url := u';
                HistoryItem.title := VideoMetadata.title info;
                HistoryItem.timestamp := now a |}
             :: filter (other u') items)).
  split; [exact (store_invariant_record _ items Hinv)|].
  unfold JSON_stringify, history_value. rewrite <- firstn_map. reflexivity.
Qed.

(** A page mounted over well-formed storage keeps the storage well-formed
    whatever happens: the persisted text is always absent, empty, or the
    serialisation of a list of well-formed entries with one entry per link
    and at most 20 entries, so the next mount can load it. *)
Theorem page_storage_well_formed (slot : option json_text) (s : State) :
  well_formed_slot slot -> reachable slot s ->
  well_formed_slot (localStorage s) /\
  completes loadHistory (initial (localStorage s)) = true.
Proof.
  intros Hslot Hreach.
  assert (Hgoal : well_formed_slot (localStorage s)).
  { assert (Hboth : well_formed_slot (localStorage s) /\ history_well_formed s).
    { induction Hreach as [Hload | s text _ IH | s clipboard _ IH
                           | s s' c _ IH Hstep | render s reply a _ IHr _ IH
                           | s k r _ IH Hr | s k _ IH | s _ IH].
      - split; [|exact (mount_history slot Hslot)].
        destruct slot as [[| |v]|]; exact Hslot.
      - destruct IH as [IHs IHh].
        destruct (storage_untouched s text None JNull 0 0%Q) as (-> & _).
        destruct (typing_frame text s) as (_ & _ & Hh & _).
        split; [exact IHs|exact (history_well_formed_frame _ _ Hh IHh)].
      - destruct IH as [IHs IHh].
        destruct (storage_untouched s "" clipboard JNull 0 0%Q) as (_ & -> & _).
        destruct (paste_frame clipboard s) as (_ & _ & Hh & _).
        split; [exact IHs|exact (history_well_formed_frame _ _ Hh IHh)].
      - destruct IH as [IHs IHh].
        inversion Hstep as [s0 q Hin | s0 Hon | s0 Hon]; subst.
        + destruct (storage_untouched s "" None q 0 0%Q) as (_ & _ & -> & _).
          destruct (select_frame q s) as (_ & _ & Hh & _).
          split; [exact IHs|exact (history_well_formed_frame _ _ Hh IHh)].
        + destruct (storage_untouched s "" None JNull 0 0%Q)
            as (_ & _ & _ & _ & -> & _).
          destruct (start_frame s) as (_ & _ & Hh).
          split; [exact IHs|exact (history_well_formed_frame _ _ Hh IHh)].
        + destruct (storage_untouched s "" None JNull 0 0%Q)
            as (_ & _ & _ & -> & _).
          destruct (begin_frame s) as (_ & _ & Hh & _).
          split; [exact IHs|exact (history_well_formed_frame _ _ Hh IHh)].
      - destruct IH as [IHs IHh]. destruct IHr as [_ IHrh].
        split; [exact (settle_storage render s reply a IHrh IHs)|].
        exact (settle_history render s reply a IHrh IHh).
      - destruct IH as [IHs IHh].
        destruct (storage_untouched s "" None JNull k r)
          as (_ & _ & _ & _ & _ & -> & _).
        destruct (proj1 (timer_frame k r s)) as (_ & _ & Hh).
        split; [exact IHs|exact (history_well_formed_frame _ _ Hh IHh)].
      - destruct IH as [IHs IHh].
        destruct (storage_untouched s "" None JNull k 0%Q)
          as (_ & _ & _ & _ & _ & _ & ->).
        destruct (proj2 (timer_frame k 0%Q s)) as (_ & _ & Hh).
        split; [exact IHs|exact (history_well_formed_frame _ _ Hh IHh)].
      - split; [left; reflexivity|].
        destruct (clear_frame s) as (_ & _ & Hh & _).
        exists []. split; [exact Hh|]. split; [constructor|cbn; lia]. }
    exact (proj1 Hboth). }
  split; [exact Hgoal|].
  destruct Hgoal as [-> | [-> | (items & _ & ->)]]; reflexivity.
Qed.

Lemma page_storage_well_formed_witness :
  well_formed_slot None /\
  completes loadHistory (initial (localStorage resolved_page)) = true.
Proof.
  assert (Hslot : well_formed_slot None) by (left; reflexivity).
  split; [exact Hslot|].
  exact (proj2 (page_storage_well_formed None resolved_page Hslot
                  resolved_page_reachable)).
Defined.

(** A record that was built has no missing field: every one of its six
    fields is truthy, being the provider's value when that is truthy and
    the default otherwise (the two lists can still be empty arrays). *)
Theorem built_record_has_every_field (data : js_value) (info : VideoMetadata.t) :
  videoInfo data = Some info ->
  truthy (VideoMetadata.title info) = true /\
  truthy (VideoMetadata.author info) = true /\
  truthy (VideoMetadata.thumbnail info) = true /\
  truthy (VideoMetadata.duration info) = true /\
  truthy (VideoMetadata.videoQualities info) = true /\
  truthy (VideoMetadata.audioFormats info) = true.
Proof.
  intros Hinfo.
  destruct (videoInfo_fields data info Hinfo)
    as (t & a & th & d & vq & af & _ & _ & _ & _ & _ & _ & ->).
  cbn [VideoMetadata.title VideoMetadata.author VideoMetadata.thumbnail
       VideoMetadata.duration VideoMetadata.videoQualities
       VideoMetadata.audioFormats].
  repeat split; apply js_or_truthy; reflexivity.
Qed.

Lemma built_record_has_every_field_witness :
  exists info,
    videoInfo (JObj [("title", JStr ""); ("duration", JNull)]) = Some info /\
    truthy (VideoMetadata.title info) = true /\
    truthy (VideoMetadata.duration info) = true.
Proof.
  destruct (videoInfo (JObj [("title", JStr ""); ("duration", JNull)]))
    as [info|] eqn:Hinfo; [|discriminate Hinfo].
  exists info. split; [reflexivity|].
  destruct (built_record_has_every_field _ info Hinfo) as (Ht & _ & _ & Hd & _).
  split; [exact Ht|exact Hd].
Defined.
